(** * descriptastorus: the record-offset indexer of MolFileIndex.py

    A shallow embedding of [descriptastorus/MolFileIndex.py]: the block
    scanner [index], the line counter [simplecount], the two index builders
    [MakeSmilesIndex] and [MakeSDFIndex], and the random-access reader
    [MolFileIndex].

    Conventions.
    - A file is the list of its bytes.  [index] reads it in binary mode.
      [simplecount] and [MolFileIndex] read it in text mode, which the
      embedding takes byte for byte: that is what Python 3 does on plain
      text (ASCII bytes, no carriage return), where decoding changes
      nothing and no line end is translated.  Every theorem on what these
      two read or count has [plain_text] of the file as a hypothesis.
    - A Python string is the list of its characters as bytes; theorems on
      [strip] and [int] take strings of ASCII characters.
    - Python integers are [Z]; a file position is a [Z].
    - A Python exception is a value of [exn]; a loop that may not end is run
      on fuel and answers [OutOfFuel] when the fuel is used up. *)

From Stdlib Require Import String Ascii Strings.Byte Numbers.DecimalString.
From Stdlib Require Import ZArith List Bool Lia Sorted.
Import ListNotations.

Local Open Scope Z_scope.

(** ** Bytes *)

Definition bytes := list byte.

Definition len {A : Type} (l : list A) : Z := Z.of_nat (length l).

(** [B "abc"] is the byte string [b"abc"]. *)
Definition B (s : string) : bytes := list_byte_of_string s.

(** The newline byte, ["\n"]. *)
Definition LF : byte := x0a.

(** The carriage return, ["\r"]. *)
Definition CR : byte := x0d.

(** A byte below 128. *)
Definition is_ascii (c : byte) : bool := (Byte.to_N c <? 128)%N.

(** A byte that a text-mode read hands on as it is: ASCII, and no carriage
    return (which universal newlines would turn into a newline). *)
Definition is_plain (c : byte) : bool := is_ascii c && negb (Byte.eqb c CR).

(** A string of ASCII characters. *)
Definition ascii_text (s : bytes) : Prop := forallb is_ascii s = true.

(** A file of plain text: read in text mode, it gives its bytes, one
    character each, and its lines end at its newlines and nowhere else. *)
Definition plain_text (F : bytes) : Prop := forallb is_plain F = true.

Definition bytes_eqb (a b : bytes) : bool :=
  if list_eq_dec Byte.byte_eq_dec a b then true else false.

(** ** Outcomes of running Python code *)

Inductive exn : Type :=
| NameError (name : string)
| AttributeError (attr : string)
| ValueError (msg : string)
| IndexError (msg : string)
| IndexOutOfRange
| ColumnCountMismatch
| ValueNotStorable.

Inductive outcome (A : Type) : Type :=
| Ok (a : A)
| Raise (e : exn)
| OutOfFuel.

Arguments Ok {A} a.
Arguments Raise {A} e.
Arguments OutOfFuel {A}.

Definition bind {A C : Type} (m : outcome A) (k : A -> outcome C) : outcome C :=
  match m with
  | Ok a => k a
  | Raise e => Raise e
  | OutOfFuel => OutOfFuel
  end.

Notation "x <- m ;; k" := (bind m (fun x => k))
  (at level 61, m at next level, right associativity).

(** ** [bytes.find] *)

(** [starts_with sub buf] is [buf[0:len(sub)] == sub]. *)
Fixpoint starts_with (sub buf : bytes) : bool :=
  match sub, buf with
  | [], _ => true
  | _ :: _, [] => false
  | a :: sub', c :: buf' => Byte.eqb a c && starts_with sub' buf'
  end.

(** [find_at sub suffix i]: the lowest position at which [sub] occurs in a
    buffer whose bytes from position [i] on are [suffix]; [-1] if none. *)
Fixpoint find_at (sub suffix : bytes) (i : Z) : Z :=
  if starts_with sub suffix then i
  else match suffix with
       | [] => -1
       | _ :: rest => find_at sub rest (i + 1)
       end.

(** [buffer.find(sub, start)] for [0 <= start], the only way the source
    calls it ([start] is left out or is [pos+1]). *)
Definition find (buffer sub : bytes) (start : Z) : Z :=
  if len buffer <? start then -1
  else find_at sub (skipn (Z.to_nat start) buffer) start.

(** ** The file handle: [f.read], with [f.tell] and [f.seek] as the position *)

(** [read F pos n] is [f.read(n)] at position [pos]: the bytes read and the
    new position.  A negative [n] reads to the end of the file. *)
Definition read (F : bytes) (pos n : Z) : bytes * Z :=
  let rest := skipn (Z.to_nat pos) F in
  let buf := if n <? 0 then rest else firstn (Z.to_nat n) rest in
  (buf, pos + len buf).

(** ** [index]: the block scanner *)

(** The inner loop of [index]:
<<
    while pos != -1:
        yield f.tell() - (len(buffer) - pos)
        pos = buffer.find(word, pos+1)
>>
    Each turn moves [pos] forward, so [len(buffer) + 2] turns are enough
    (see [yield_matches_all]). *)
Fixpoint yield_matches (turns : nat) (buffer word : bytes) (tell pos : Z) : list Z :=
  match turns with
  | O => []
  | S k =>
      if pos =? -1 then []
      else (tell - (len buffer - pos))
             :: yield_matches k buffer word tell (find buffer word (pos + 1))
  end.

Definition scan_buffer (buffer word : bytes) (tell : Z) : list Z :=
  yield_matches (S (S (length buffer))) buffer word tell (find buffer word 0).

(** The outer loop of [index], read with block size [bsize]; [tell] is
    [f.tell()] at the top of the loop.  [None] when the fuel runs out. *)
Fixpoint index_loop (fuel : nat) (bsize : Z) (F word : bytes) (tell : Z)
  : option (list Z) :=
  match fuel with
  | O => None
  | S k =>
      let fsize := len F in
      let overlap := len word - 1 in
      let tell1 :=
        if (overlap <=? tell) && (tell <? fsize) then tell - overlap else tell in
      let '(buffer, tell2) := read F tell1 bsize in
      match buffer with
      | [] => Some []
      | _ :: _ =>
          match index_loop k bsize F word tell2 with
          | Some later => Some (scan_buffer buffer word tell2 ++ later)
          | None => None
          end
      end
  end.

(** [bsize = 2**16] *)
Definition bsize : Z := 2 ^ 16.

(** Each turn of the outer loop that does not end it moves the position
    forward when [len(word) <= bsize], so [len F + 2] turns are enough
    (see [index_loop_all]). *)
Definition index_fuel (F : bytes) : nat := S (S (length F)).

Definition index (F word : bytes) : option (list Z) :=
  index_loop (index_fuel F) bsize F word 0.

(** ** [simplecount] *)

(** Iterating over an open text file yields its lines, each with its
    newline; a last line without a newline is a line too.  Taken on plain
    text ([plain_text]): there a line ends at a newline and nowhere else,
    and no byte fails to decode. *)
Fixpoint readlines_from (cur F : bytes) : list bytes :=
  match F with
  | [] => match cur with [] => [] | _ :: _ => [rev cur] end
  | c :: rest =>
      if Byte.eqb c LF then rev (c :: cur) :: readlines_from [] rest
      else readlines_from (c :: cur) rest
  end.

Definition readlines (F : bytes) : list bytes := readlines_from [] F.

Definition simplecount (F : bytes) : Z :=
  fold_left (fun lines _ => lines + 1) (readlines F) 0.

(** ** [raw]: the fixed-width column store *)

Module raw.

Inductive dtype : Type := uint8 | uint16 | uint32 | uint64.

(** Element width in bytes. *)
Definition width (d : dtype) : Z :=
  match d with uint8 => 1 | uint16 => 2 | uint32 => 4 | uint64 => 8 end.

(** [fits d v]: [v] is in the unsigned range of [d]. *)
Definition fits (d : dtype) (v : Z) : bool :=
  (0 <=? v) && (v <? 2 ^ (8 * width d)).

(** Modelled from the spec: the class [raw.RawStore] and [raw.MakeStore]
    (module [raw] is imported by MolFileIndex.py; its file is not part of
    the sources at hand).  A store has an ordered schema of typed columns
    and a row count [N] fixed at creation; rows are zero-filled at
    creation; [get] and [putRow] address a row by its index and fail
    outside [[0, N)]; [putRow] fails on a row of the wrong arity. *)
Record RawStore : Type := mkRawStore {
  columns : list (string * dtype);
  N : Z;
  rows : list (list Z)
}.

(** Modelled from the spec: [raw.MakeStore(cols, N, directory)], on a
    directory that does not exist yet: [n] zero-filled rows.  The store is
    passed on by value; [raw.RawStore(directory)] opens the same store. *)
Definition MakeStore (cols : list (string * dtype)) (n : Z) : RawStore :=
  {| columns := cols;
     N := n;
     rows := repeat (map (fun _ => 0) cols) (Z.to_nat n) |}.

(** Modelled from the spec: [RawStore.get(idx)], the values of row [idx]
    in column order; [IndexOutOfRange] outside [[0, N)]. *)
Definition get (db : RawStore) (idx : Z) : outcome (list Z) :=
  if (0 <=? idx) && (idx <? N db) then
    match nth_error (rows db) (Z.to_nat idx) with
    | Some r => Ok r
    | None => Raise IndexOutOfRange
    end
  else Raise IndexOutOfRange.

Fixpoint update {A : Type} (l : list A) (i : nat) (x : A) : list A :=
  match l, i with
  | [], _ => []
  | _ :: t, O => x :: t
  | h :: t, S j => h :: update t j x
  end.

Section Put.
(** The spec fixes what a store does with a value of the column's range
    (it is read back as written) and leaves open what it does with any
    other value: [narrow d v] is the value kept in its place, or [None]
    when the write is refused ([ValueNotStorable]). *)
Variable narrow : dtype -> Z -> option Z.

Definition cell (d : dtype) (v : Z) : option Z :=
  if fits d v then Some v else narrow d v.

Fixpoint cells (cols : list (string * dtype)) (row : list Z) : option (list Z) :=
  match cols, row with
  | [], [] => Some []
  | (_, d) :: cols', v :: row' =>
      match cell d v, cells cols' row' with
      | Some c, Some cs => Some (c :: cs)
      | _, _ => None
      end
  | _, _ => None
  end.

(** Modelled from the spec: [RawStore.putRow(idx, row)] overwrites row
    [idx]; [IndexOutOfRange] outside [[0, N)], [ColumnCountMismatch] on a
    row of the wrong arity. *)
Definition putRow (db : RawStore) (idx : Z) (row : list Z) : outcome RawStore :=
  if (0 <=? idx) && (idx <? N db) then
    if Nat.eqb (length row) (length (columns db)) then
      match cells (columns db) row with
      | Some stored =>
          Ok {| columns := columns db;
                N := N db;
                rows := update (rows db) (Z.to_nat idx) stored |}
      | None => Raise ValueNotStorable
      end
    else Raise ColumnCountMismatch
  else Raise IndexOutOfRange.
End Put.

End raw.

(** ** Python values and helpers used by the class *)

(** What [_get] returns: the raw record, or its fields. *)
Inductive pyval : Type :=
| Str (s : bytes)
| StrList (l : list bytes).

(** [len(v)] *)
Definition pylen (v : pyval) : Z :=
  match v with Str s => len s | StrList l => len l end.

(** [v[i]], with Python's negative indices. *)
Definition getitem (v : pyval) (i : Z) : outcome pyval :=
  let n := pylen v in
  let j := if i <? 0 then i + n else i in
  if (0 <=? j) && (j <? n) then
    match v with
    | Str s => match nth_error s (Z.to_nat j) with
               | Some c => Ok (Str [c])
               | None => Raise (IndexError "string index out of range")
               end
    | StrList l => match nth_error l (Z.to_nat j) with
                   | Some x => Ok (Str x)
                   | None => Raise (IndexError "list index out of range")
                   end
    end
  else Raise (IndexError "index out of range").

(** [row[0]] on a row of the store. *)
Definition first_column (r : list Z) : outcome Z :=
  match r with
  | v :: _ => Ok v
  | [] => Raise (IndexError "tuple index out of range")
  end.

(** [s.split(sep)] for a non-empty [sep]; [skip] counts the bytes of a
    separator still to pass over. *)
Fixpoint split_from (sep : bytes) (skip : nat) (cur s : bytes) : list bytes :=
  match s with
  | [] => [rev cur]
  | c :: rest =>
      match skip with
      | S k => split_from sep k cur rest
      | O =>
          if starts_with sep s
          then rev cur :: split_from sep (length sep - 1) [] rest
          else split_from sep 0 (c :: cur) rest
      end
  end.

Definition split (s sep : bytes) : list bytes := split_from sep 0 [] s.

(** The ASCII characters [str.strip()] takes for white space: tab to
    carriage return, the four separators [0x1c] to [0x1f], and the space. *)
Definition is_space (c : byte) : bool :=
  match c with
  | x09 | x0a | x0b | x0c | x0d | x1c | x1d | x1e | x1f | x20 => true
  | _ => false
  end.

Fixpoint lstrip (s : bytes) : bytes :=
  match s with
  | c :: rest => if is_space c then lstrip rest else s
  | [] => []
  end.

Definition strip (s : bytes) : bytes := rev (lstrip (rev (lstrip s))).

Definition digit_of (c : byte) : option Z :=
  match c with
  | x30 => Some 0 | x31 => Some 1 | x32 => Some 2 | x33 => Some 3 | x34 => Some 4
  | x35 => Some 5 | x36 => Some 6 | x37 => Some 7 | x38 => Some 8 | x39 => Some 9
  | _ => None
  end.

(** The digits of [int(s)]: one decimal digit or more, with single
    underscores allowed between two digits.  [after_digit] says that the
    byte before was a digit. *)
Fixpoint digits_value (acc : Z) (after_digit : bool) (s : bytes) : option Z :=
  match s with
  | [] => if after_digit then Some acc else None
  | c :: rest =>
      match digit_of c with
      | Some d => digits_value (10 * acc + d) true rest
      | None =>
          if Byte.eqb c x5f && after_digit
          then digits_value acc false rest
          else None
      end
  end.

(** The ASCII characters [int()] skips around a number: tab to carriage
    return and the space (not the separators [0x1c] to [0x1f]). *)
Definition is_int_space (c : byte) : bool :=
  match c with
  | x09 | x0a | x0b | x0c | x0d | x20 => true
  | _ => false
  end.

Fixpoint int_lstrip (s : bytes) : bytes :=
  match s with
  | c :: rest => if is_int_space c then int_lstrip rest else s
  | [] => []
  end.

Definition int_strip (s : bytes) : bytes := rev (int_lstrip (rev (int_lstrip s))).

(** [int(s)] on a string of ASCII characters: white space around, an
    optional sign, then the digits.  [None] stands for [ValueError]. *)
Definition int_of_str (s : bytes) : option Z :=
  match int_strip s with
  | x2d :: ds => option_map Z.opp (digits_value 0 false ds)
  | x2b :: ds => digits_value 0 false ds
  | ds => digits_value 0 false ds
  end.

(** ["column_%d" % x] *)
Definition column_name (x : nat) : bytes :=
  B "column_" ++ B (NilZero.string_of_uint (Nat.to_uint x)).

(** A column argument: an integer, or a string (a header name or the
    text of an integer, as the command line passes it). *)
Inductive column : Type :=
| ColInt (i : Z)
| ColStr (s : bytes).

(** [col != -1] *)
Definition is_not_minus_one (col : column) : bool :=
  match col with
  | ColInt i => negb (i =? -1)
  | ColStr _ => true
  end.

Fixpoint list_index (l : list bytes) (x : bytes) (i : Z) : option Z :=
  match l with
  | [] => None
  | y :: rest => if bytes_eqb y x then Some i else list_index rest x (i + 1)
  end.

(** [colnames.index(name)]: position of [name] in a list of names, or of
    the substring [name] when [colnames] is a raw string. *)
Definition colnames_index (colnames : pyval) (name : bytes) : outcome Z :=
  match colnames with
  | StrList l =>
      match list_index l name 0 with
      | Some i => Ok i
      | None => Raise (ValueError "is not in list")
      end
  | Str s =>
      let i := find s name 0 in
      if i =? -1 then Raise (ValueError "substring not found") else Ok i
  end.

(** ** The class [MolFileIndex] *)

(** An attribute that [__init__] assigns on some paths only: [None] when
    it was never assigned (reading it raises [AttributeError]). *)
Definition attribute (A : Type) : Type := option A.

Definition getattr {A : Type} (name : string) (a : attribute A) : outcome A :=
  match a with
  | Some v => Ok v
  | None => Raise (AttributeError name)
  end.

Record MolFileIndex : Type := mkMolFileIndex {
  db : raw.RawStore;
  filename : bytes;                 (* the indexed file, by content *)
  hasHeader : bool;
  smilesColumn : column;
  nameColumn : column;
  nameFxn : option (bytes -> bytes);
  N : Z;
  sep : option bytes;
  colnames : pyval;
  smilesColIdx : attribute Z;
  nameidx : attribute Z;
  _nameGetter : attribute (option (pyval -> pyval))
}.

(** Lines 92-98 of [_get], on the physical row [idx] of the index.  The
    file is open in text mode; on plain text ([plain_text]) the characters
    read are the bytes from [start] on, one for one:
<<
    start = self.db.get(idx)[0]
    end = self.db.get(idx+1)[0]
    self.f.seek(start,0)
    buf = self.f.read(end-start-1)
    if self.sep:
        return buf.split(self.sep)
    return buf
>> *)
Definition read_record (store : raw.RawStore) (F : bytes) (separator : option bytes)
    (idx : Z) : outcome pyval :=
  r0 <- raw.get store idx ;;
  start <- first_column r0 ;;
  r1 <- raw.get store (idx + 1) ;;
  end_ <- first_column r1 ;;
  let '(buf, _) := read F start (end_ - start - 1) in
  match separator with
  | Some ((_ :: _) as sp) => Ok (StrList (split buf sp))
  | _ => Ok (Str buf)
  end.

(** Lines 87-90 of [_get]: the row argument, [None] for the header. *)
Definition resolve_row (header : bool) (idx : option Z) : Z :=
  match idx with
  | None => 0
  | Some i => if header then i + 1 else i
  end.

(** [_get] on the attributes it reads; [__init__] calls it before the
    object is complete. *)
Definition _get_on (store : raw.RawStore) (F : bytes) (header : bool)
    (separator : option bytes) (idx : option Z) : outcome pyval :=
  read_record store F separator (resolve_row header idx).

Definition _get (self : MolFileIndex) (idx : option Z) : outcome pyval :=
  _get_on (db self) (filename self) (hasHeader self) (sep self) idx.

(** Lines 55-61 and 71-78: [int(col)], and on [ValueError] the position of
    [col] in the header. *)
Definition resolve_column (names : pyval) (col : column) : outcome Z :=
  match col with
  | ColInt i => Ok i
  | ColStr s =>
      match int_of_str s with
      | Some i => Ok i
      | None =>
          i <- colnames_index names s ;;
          if i =? -1 then Raise (IndexError "column name not in header") else Ok i
      end
  end.

Definition __init__ (F : bytes) (store : raw.RawStore)
    (smilesCol nameCol : column) (header : bool) (separator : option bytes)
    (nameFunction : option (bytes -> bytes)) : outcome MolFileIndex :=
  let n := if header then raw.N store - 3 else raw.N store - 2 in
  names <- (if header then _get_on store F header separator None
            else
              r <- _get_on store F header separator (Some 0) ;;
              Ok (StrList (map column_name (seq 0 (Z.to_nat (pylen r)))))) ;;
  row <- (if header then _get_on store F header separator (Some 1)
          else _get_on store F header separator (Some 0)) ;;
  sidx <- (if is_not_minus_one smilesCol then
             i <- resolve_column names smilesCol ;;
             if pylen row <=? i
             then Raise (IndexError "Smiles Column greater than rowsize")
             else Ok (Some i)
           else Ok None) ;;
  nidx <- (if is_not_minus_one nameCol then
             i <- resolve_column names nameCol ;;
             if pylen row <=? i
             then (_ <- getattr "smilesColIdx" sidx ;;
                   Raise (IndexError "Name Column greater than rowsize"))
             else Ok (Some i)
           else Ok None) ;;
  Ok {| db := store;
        filename := F;
        hasHeader := header;
        smilesColumn := smilesCol;
        nameColumn := nameCol;
        nameFxn := nameFunction;
        N := n;
        sep := separator;
        colnames := names;
        smilesColIdx := sidx;
        nameidx := nidx;
        _nameGetter := None |}.

Definition header (self : MolFileIndex) : outcome pyval :=
  if hasHeader self then _get self None
  else Raise (ValueError "Datastore doesn't have a header").

Definition get (self : MolFileIndex) (idx : Z) : outcome pyval :=
  let idx := if hasHeader self then idx + 1 else idx in
  _get self (Some idx).

Definition getMol (self : MolFileIndex) (idx : Z) : outcome pyval :=
  c <- getattr "smilesColIdx" (smilesColIdx self) ;;
  if negb (c =? -1) then
    r <- _get self (Some idx) ;;
    getitem r c
  else _get self (Some idx).

Definition getName (self : MolFileIndex) (idx : Z) : outcome pyval :=
  n <- getattr "nameidx" (nameidx self) ;;
  if n =? -1 then
    g <- getattr "_nameGetter" (_nameGetter self) ;;
    match g with
    | Some fn => r <- _get self (Some idx) ;; Ok (fn r)
    | None =>
        Raise (ValueError "SmilesIndex does not have a name column or a name retriever")
    end
  else
    r <- _get self (Some idx) ;;
    getitem r n.

(** ** The index builders *)

(** Lines 161-168 and 190-197, the same in both builders. *)
Definition offset_dtype (n : Z) : raw.dtype :=
  if n <? 2 ^ 8 then raw.uint8
  else if n <? 2 ^ 16 then raw.uint16
  else if n <? 2 ^ 32 then raw.uint32
  else raw.uint64.

(** [for i, x in enumerate(xs): db = body(db, i, x)], stopping at the
    first exception. *)
Fixpoint for_enumerate {A S : Type} (body : S -> Z -> A -> outcome S)
    (i : Z) (xs : list A) (s : S) : outcome S :=
  match xs with
  | [] => Ok s
  | x :: rest => s' <- body s i x ;; for_enumerate body (i + 1) rest s'
  end.

Definition run_index (F word : bytes) : outcome (list Z) :=
  match index F word with
  | Some offsets => Ok offsets
  | None => OutOfFuel
  end.

(** The terminator of an SDF record, [b"$$$$\n"]. *)
Definition sdf_terminator : bytes := B "$$$$" ++ [LF].

(** [SDFNameGetter]: [buffer.split("\n")[0].strip()] *)
Definition SDFNameGetter (buffer : bytes) : bytes :=
  strip (hd [] (split buffer [LF])).

Section Builders.
Variable narrow : raw.dtype -> Z -> option Z.

(** Lines 158-176 of [MakeSmilesIndex]: the store it fills. *)
Definition smiles_store (F : bytes) : outcome raw.RawStore :=
  let n := simplecount F in
  let dtype := offset_dtype n in
  let store := raw.MakeStore [("index"%string, dtype)] (n + 1) in
  store <- raw.putRow narrow store 0 [0] ;;
  offsets <- run_index F [LF] ;;
  for_enumerate (fun st i pos => raw.putRow narrow st (i + 1) [pos + 1])
                0 offsets store.

Definition MakeSmilesIndex (F : bytes) (header : bool)
    (smilesCol nameCol : column) (separator : option bytes)
  : outcome MolFileIndex :=
  store <- smiles_store F ;;
  __init__ F store smilesCol nameCol header separator None.

(** Lines 187-207 of [MakeSDFIndex].  The loop body reads [pos], a name
    bound nowhere in the function or the module. *)
Definition sdf_store (F : bytes) : outcome raw.RawStore :=
  let n := simplecount F in
  let dtype := offset_dtype n in
  indices <- run_index F sdf_terminator ;;
  let store := raw.MakeStore [("index"%string, dtype)] (n + 1) in
  store <- raw.putRow narrow store 0 [0] ;;
  for_enumerate (fun st i (idx : Z) =>
                   pos <- (Raise (NameError "pos") : outcome Z) ;;
                   raw.putRow narrow st (i + 1) [pos + 1])
                0 indices store.

Definition MakeSDFIndex (F : bytes) : outcome MolFileIndex :=
  store <- sdf_store F ;;
  __init__ F store (ColInt (-1)) (ColInt (-1)) false None (Some SDFNameGetter).
End Builders.

(** ** What the scanner is compared with *)

(** [T] occurs in [F] at byte position [p]: [F[p : p+len(T)] == T]. *)
Definition occurs_at (F T : bytes) (p : Z) : Prop :=
  0 <= p /\ firstn (length T) (skipn (Z.to_nat p) F) = T.

(** Every position at which [T] occurs in a buffer whose bytes from
    position [i] on are [X], in increasing order. *)
Fixpoint occurrences (T X : bytes) (i : Z) : list Z :=
  (if starts_with T X then [i] else [])
    ++ match X with
       | [] => []
       | _ :: X' => occurrences T X' (i + 1)
       end.

(** No two entries of [offs] are occurrences of [T] that share a byte. *)
Definition non_overlapping (T : bytes) (offs : list Z) : Prop :=
  forall p q, In p offs -> In q offs -> p < q -> p + len T <= q.

(** Where [index] seeks before a read when [f.tell()] is [tell]
    (lines 144-145). *)
Definition seek_start (F T : bytes) (tell : Z) : Z :=
  if (len T - 1 <=? tell) && (tell <? len F) then tell - (len T - 1) else tell.

(** The spec's [width_for]: the smallest of the widths 1, 2, 4 and 8 bytes
    whose unsigned range covers [count] (8 bytes when none does). *)
Definition width_for (count : Z) : raw.dtype :=
  hd raw.uint64
     (filter (fun d => raw.fits d count)
             [raw.uint8; raw.uint16; raw.uint32; raw.uint64]).

(** ** Two stores for values out of a column's range, and sample files *)

(** A store that refuses such a value. *)
Definition refuse : raw.dtype -> Z -> option Z := fun _ _ => None.

(** A store that keeps its low bytes. *)
Definition wrap : raw.dtype -> Z -> option Z :=
  fun d v => Some (v mod 2 ^ (8 * raw.width d)).

(** ["a,1\nbb,2\ncc,3\n"] *)
Definition smiles_file : bytes :=
  B "a,1" ++ [LF] ++ B "bb,2" ++ [LF] ++ B "cc,3" ++ [LF].

(** ["h\na\nb\nc\n"]: a header line and three records. *)
Definition header_file : bytes :=
  B "h" ++ [LF] ++ B "a" ++ [LF] ++ B "b" ++ [LF] ++ B "c" ++ [LF].

(** The record indexes [MakeSmilesIndex] stores for these two files. *)
Definition smiles_file_index : raw.RawStore :=
  raw.mkRawStore [("index"%string, raw.uint8)] 4 [[0]; [4]; [9]; [14]].

Definition header_file_index : raw.RawStore :=
  raw.mkRawStore [("index"%string, raw.uint8)] 5 [[0]; [2]; [4]; [6]; [8]].

(** ["M\n$$$$\n"]: one SDF record. *)
Definition sdf_file : bytes := B "M" ++ [LF] ++ sdf_terminator.

(** The record index of [sdf_file] as the spec's builder lays it out:
    offsets [0] and [7]. *)
Definition sdf_file_index : outcome raw.RawStore :=
  let store := raw.MakeStore [("index"%string, raw.uint8)] 2 in
  store <- raw.putRow refuse store 0 [0] ;;
  raw.putRow refuse store 1 [7].

(** One line of 299 bytes and its newline. *)
Definition long_line_file : bytes := repeat x78 299 ++ [LF].

(** 256 empty lines: no SDF record. *)
Definition blank_lines_file : bytes := repeat LF 256.

(** 255 empty lines and a last line without a newline. *)
Definition open_last_line_file : bytes := repeat LF 255 ++ B "x".

(** ** Files written line by line *)

(** A line holds no newline. *)
Definition no_LF (l : bytes) : Prop := ~ In LF l.

(** The file that holds the records [ls], each followed by a newline, and
    then [t], a last line without a newline ([[]] when there is none). *)
Fixpoint write_lines (ls : list bytes) (t : bytes) : bytes :=
  match ls with
  | [] => t
  | l :: ls' => l ++ LF :: write_lines ls' t
  end.

(** The positions of the newlines of [write_lines ls t], the file
    starting at position [i]. *)
Fixpoint line_ends (ls : list bytes) (i : Z) : list Z :=
  match ls with
  | [] => []
  | l :: ls' => (i + len l) :: line_ends ls' (i + len l + 1)
  end.

(** The last byte of the file is not a newline. *)
Definition ends_open (F : bytes) : bool :=
  match rev F with
  | [] => false
  | c :: _ => negb (Byte.eqb c LF)
  end.

(** What [_get] returns for the bytes [buf] of a record (lines 96-98). *)
Definition as_row (separator : option bytes) (buf : bytes) : pyval :=
  match separator with
  | Some ((_ :: _) as sp) => StrList (split buf sp)
  | _ => Str buf
  end.

(** ** scripts/storus.py: the jobs of one round (lines 146-153) *)

(** [range(lo, hi)] *)
Definition range (lo hi : Z) : list Z :=
  map (fun k => lo + Z.of_nat k) (seq 0 (Z.to_nat (hi - lo))).

(** A job entry, [(i, sm.getMol(i))]. *)
Definition job : Type := (Z * pyval)%type.

(** The inner loop,
<<
    for i in range(count, min(count+batchsize, sm.N)):
        jobs.append((i,sm.getMol(i)))
>>
    on the values [rng] of the range still to come.  [i] is the module
    variable [i], [None] as long as nothing was assigned to it; an empty
    range leaves it as it is. *)
Fixpoint collect_jobs (sm : MolFileIndex) (rng : list Z) (i : option Z)
    (jobs : list job) : outcome (option Z * list job) :=
  match rng with
  | [] => Ok (i, jobs)
  | j :: rest =>
      mol <- getMol sm j ;;
      collect_jobs sm rest (Some j) (jobs ++ [(j, mol)])
  end.

(** One turn of [for cpuidx in range(num_cpus)]:
<<
    jobs = []
    for i in range(count, min(count+batchsize, sm.N)): ...
    count = i+1
    if jobs:
        joblist.append(jobs)
>>
    on the state [(count, i, joblist)]. *)
Definition cpu_turn (sm : MolFileIndex) (batchsize : Z)
    (st : Z * option Z * list (list job)) : outcome (Z * option Z * list (list job)) :=
  let '(count, i, joblist) := st in
  r <- collect_jobs sm (range count (Z.min (count + batchsize) (N sm))) i [] ;;
  let '(i', jobs) := r in
  iv <- match i' with
        | Some v => Ok v
        | None => Raise (NameError "i")
        end ;;
  Ok (iv + 1, i',
      match jobs with
      | [] => joblist
      | _ :: _ => joblist ++ [jobs]
      end).

(** [for cpuidx in range(num_cpus)], from [joblist = []]. *)
Fixpoint cpu_turns (sm : MolFileIndex) (batchsize : Z) (num_cpus : nat)
    (st : Z * option Z * list (list job)) : outcome (Z * option Z * list (list job)) :=
  match num_cpus with
  | O => Ok st
  | S k => st' <- cpu_turn sm batchsize st ;; cpu_turns sm batchsize k st'
  end.

(** * Theorems *)

(** ** [starts_with] and [find] *)

Lemma len_nonneg {A : Type} (l : list A) : 0 <= len l.
Proof. unfold len. lia. Qed.

Lemma len_cons {A : Type} (x : A) (l : list A) : len (x :: l) = len l + 1.
Proof. unfold len. cbn [length]. lia. Qed.

Lemma byte_eqb_eq (a c : byte) : Byte.eqb a c = true <-> a = c.
Proof.
  split.
  - apply Byte.byte_dec_bl.
  - apply Byte.byte_dec_lb.
Qed.

Lemma starts_with_firstn (T X : bytes) :
  starts_with T X = true <-> firstn (length T) X = T.
Proof.
  revert X. induction T as [|a T IH]; intros X; cbn.
  - split; reflexivity.
  - destruct X as [|c X]; cbn.
    + split; discriminate.
    + rewrite andb_true_iff, byte_eqb_eq, IH. split.
      * intros [-> ->]. reflexivity.
      * intros E. injection E as -> E. split; [reflexivity | exact E].
Qed.

Lemma starts_with_short (T X : bytes) :
  (length X < length T)%nat -> starts_with T X = false.
Proof.
  intros Hlt. destruct (starts_with T X) eqn:E; [|reflexivity].
  apply starts_with_firstn in E.
  apply (f_equal (@length byte)) in E. rewrite length_firstn in E. lia.
Qed.

Lemma starts_with_block (T X : bytes) (m : nat) :
  (length T <= m)%nat -> starts_with T (firstn m X) = starts_with T X.
Proof.
  revert X m. induction T as [|a T IH]; intros X m Hm; cbn.
  - reflexivity.
  - cbn in Hm. destruct m as [|m]; [lia|].
    destruct X as [|c X]; cbn; [reflexivity|].
    rewrite IH by lia. reflexivity.
Qed.

(** ** All occurrences *)

Lemma occurrences_short (T X : bytes) (i : Z) :
  (length X < length T)%nat -> occurrences T X i = [].
Proof.
  revert i. induction X as [|x X IH]; intros i Hlt; cbn [occurrences].
  - rewrite starts_with_short by exact Hlt. reflexivity.
  - rewrite starts_with_short by exact Hlt. cbn [length] in Hlt.
    rewrite IH by lia. reflexivity.
Qed.

Lemma occurrences_shift (T X : bytes) (c i : Z) :
  map (Z.add c) (occurrences T X i) = occurrences T X (c + i).
Proof.
  revert i. induction X as [|x X IH]; intros i; cbn [occurrences].
  - destruct (starts_with T []); reflexivity.
  - rewrite map_app, IH. replace (c + (i + 1)) with (c + i + 1) by lia.
    destruct (starts_with T (x :: X)); reflexivity.
Qed.

(** A block of [k + len T - 1] bytes holds exactly the occurrences that
    start in its first [k] bytes; the others start at [k] or later. *)
Lemma occurrences_split (T X : bytes) (k : nat) (i : Z) :
  T <> [] ->
  occurrences T X i
  = occurrences T (firstn (k + length T - 1) X) i
      ++ occurrences T (skipn k X) (i + Z.of_nat k).
Proof.
  intros HT. assert (Hn : (0 < length T)%nat) by (destruct T; cbn; [congruence | lia]).
  revert X i. induction k as [|k IH]; intros X i.
  - rewrite (occurrences_short T (firstn _ X)) by (rewrite length_firstn; lia).
    replace (i + Z.of_nat 0) with i by lia. reflexivity.
  - destruct X as [|x X].
    + rewrite firstn_nil, skipn_nil, !occurrences_short by (cbn; lia). reflexivity.
    + replace (S k + length T - 1)%nat with (S (k + length T - 1)) by lia.
      cbn [firstn skipn occurrences].
      replace (x :: firstn (k + length T - 1) X)
        with (firstn (S (k + length T - 1)) (x :: X)) by reflexivity.
      rewrite starts_with_block by lia.
      rewrite (IH X (i + 1)), <- app_assoc.
      replace (i + 1 + Z.of_nat k) with (i + Z.of_nat (S k)) by lia.
      reflexivity.
Qed.

Lemma occurrences_lower (T X : bytes) (i p : Z) :
  In p (occurrences T X i) -> i <= p.
Proof.
  revert i. induction X as [|x X IH]; intros i; cbn [occurrences]; rewrite in_app_iff.
  - destruct (starts_with T []); cbn; intuition lia.
  - intros [H|H].
    + destruct (starts_with T (x :: X)); cbn in H; intuition lia.
    + apply IH in H. lia.
Qed.

Lemma occurrences_sorted (T X : bytes) (i : Z) :
  StronglySorted Z.lt (occurrences T X i).
Proof.
  revert i. induction X as [|x X IH]; intros i; cbn [occurrences].
  - destruct (starts_with T []); cbn; repeat constructor.
  - destruct (starts_with T (x :: X)); cbn [app]; [|apply IH].
    constructor; [apply IH|].
    apply Forall_forall. intros p Hp. apply occurrences_lower in Hp. lia.
Qed.

Lemma occurrences_In (T X : bytes) (i p : Z) :
  T <> [] ->
  In p (occurrences T X i)
  <-> i <= p /\ starts_with T (skipn (Z.to_nat (p - i)) X) = true.
Proof.
  intros HT.
  assert (Hnil : starts_with T [] = false) by (destruct T; [congruence | reflexivity]).
  revert i. induction X as [|x X IH]; intros i; cbn [occurrences]; rewrite in_app_iff.
  - rewrite skipn_nil, Hnil. cbn. split; [intros [[]|[]] | intros [_ H]; discriminate H].
  - rewrite IH. destruct (Z.eq_dec p i) as [->|Hne].
    + replace (Z.to_nat (i - i)) with 0%nat by lia. cbn [skipn].
      destruct (starts_with T (x :: X)); cbn; split; intros H.
      * split; [lia | reflexivity].
      * left. left. reflexivity.
      * destruct H as [[]|[H _]]. lia.
      * destruct H as [_ H]. discriminate H.
    + split.
      * intros [H|[Hle H]].
        -- destruct (starts_with T (x :: X)); cbn in H; [|destruct H].
           destruct H as [H|[]]. congruence.
        -- split; [lia|].
           replace (Z.to_nat (p - i)) with (S (Z.to_nat (p - (i + 1)))) by lia.
           exact H.
      * intros [Hle H]. right. split; [lia|].
        replace (Z.to_nat (p - i)) with (S (Z.to_nat (p - (i + 1)))) in H by lia.
        exact H.
Qed.

Lemma occurrences_occurs_at (F T : bytes) (p : Z) :
  T <> [] -> In p (occurrences T F 0) <-> occurs_at F T p.
Proof.
  intros HT. rewrite occurrences_In by exact HT. unfold occurs_at.
  rewrite starts_with_firstn. replace (p - 0) with p by lia. reflexivity.
Qed.

(** ** The inner loop finds every occurrence in its buffer *)

Lemma find_at_none (T X : bytes) (i : Z) :
  0 <= i -> find_at T X i = -1 -> occurrences T X i = [].
Proof.
  revert i. induction X as [|x X IH]; intros i Hi; cbn [find_at occurrences].
  - destruct (starts_with T []); [lia | reflexivity].
  - destruct (starts_with T (x :: X)); [lia|].
    intros H. apply IH in H; [|lia]. rewrite H. reflexivity.
Qed.

Lemma find_at_some (T X : bytes) (i r : Z) :
  T <> [] -> 0 <= i -> find_at T X i = r -> r <> -1 ->
  exists k : nat,
    r = i + Z.of_nat k /\ (k < length X)%nat /\
    occurrences T X i = r :: occurrences T (skipn (S k) X) (r + 1).
Proof.
  intros HT.
  assert (Hnil : starts_with T [] = false) by (destruct T; [congruence | reflexivity]).
  revert i. induction X as [|x X IH]; intros i Hi; cbn [find_at occurrences].
  - rewrite Hnil. intros <- H. congruence.
  - destruct (starts_with T (x :: X)).
    + intros <- _. exists 0%nat. cbn [skipn length].
      split; [lia | split; [lia | reflexivity]].
    + intros Hr Hne. destruct (IH (i + 1) ltac:(lia) Hr Hne) as (k & -> & Hk & E).
      exists (S k). cbn [length].
      split; [lia | split; [lia |]].
      cbn [app]. rewrite E. reflexivity.
Qed.

Lemma yield_matches_all (buffer T : bytes) (tell : Z) :
  T <> [] ->
  forall (turns : nat) (start : Z),
    0 <= start ->
    (length buffer - Z.to_nat start < turns)%nat ->
    yield_matches turns buffer T tell (find buffer T start)
    = map (Z.add (tell - len buffer))
          (occurrences T (skipn (Z.to_nat start) buffer) start).
Proof.
  intros HT. induction turns as [|k IH]; intros start Hs Hk; [lia|].
  cbn [yield_matches]. unfold find.
  destruct (len buffer <? start) eqn:Hlen.
  - apply Z.ltb_lt in Hlen. rewrite Z.eqb_refl.
    rewrite skipn_all2 by (unfold len in Hlen; lia).
    rewrite occurrences_short; [reflexivity|].
    destruct T; [congruence | cbn; lia].
  - apply Z.ltb_ge in Hlen.
    destruct (find_at T (skipn (Z.to_nat start) buffer) start =? -1) eqn:Hr.
    + apply Z.eqb_eq in Hr. rewrite (find_at_none _ _ _ Hs Hr). reflexivity.
    + apply Z.eqb_neq in Hr.
      destruct (find_at_some T _ start _ HT Hs eq_refl Hr) as (j & Ej & Hj & E).
      rewrite E. cbn [map]. rewrite length_skipn in Hj.
      f_equal; [lia|].
      set (r := find_at T (skipn (Z.to_nat start) buffer) start) in *.
      fold (find buffer T (r + 1)).
      rewrite IH by lia.
      rewrite skipn_skipn.
      replace (S j + Z.to_nat start)%nat with (Z.to_nat (r + 1)) by lia.
      reflexivity.
Qed.

Lemma scan_buffer_all (buffer T : bytes) (tell : Z) :
  T <> [] ->
  scan_buffer buffer T tell = occurrences T buffer (tell - len buffer).
Proof.
  intros HT. unfold scan_buffer.
  rewrite yield_matches_all by (auto; lia).
  cbn [Z.to_nat skipn]. rewrite occurrences_shift. f_equal. lia.
Qed.

(** ** The outer loop finds every occurrence in the file *)

Lemma index_loop_all (F T : bytes) (b : Z) :
  T <> [] -> len T <= b ->
  forall (fuel : nat) (tell : Z),
    0 <= tell ->
    (tell < len F -> tell = 0 \/ len T - 1 <= tell) ->
    (Z.to_nat (len F - tell) < fuel)%nat ->
    index_loop fuel b F T tell
    = Some (occurrences T (skipn (Z.to_nat (seek_start F T tell)) F)
                        (seek_start F T tell)).
Proof.
  intros HT Hb.
  assert (Hn : 1 <= len T) by (destruct T; [congruence | rewrite len_cons; pose proof (len_nonneg T); lia]).
  induction fuel as [|k IH]; intros tell Ht Hreach Hfuel; [lia|].
  cbn [index_loop]. fold (seek_start F T tell).
  set (s := seek_start F T tell).
  unfold read. replace (b <? 0) with false by (symmetry; apply Z.ltb_ge; lia).
  destruct (Z.lt_ge_cases tell (len F)) as [Hlt|Hge].
  - (* a block is read *)
    assert (Hs : 0 <= s <= tell /\ (tell = 0 \/ s = tell - (len T - 1))).
    { unfold s, seek_start.
      destruct (len T - 1 <=? tell) eqn:E1; destruct (tell <? len F) eqn:E2; cbn [andb];
        try apply Z.leb_le in E1; try apply Z.leb_gt in E1;
        try apply Z.ltb_lt in E2; try apply Z.ltb_ge in E2; lia. }
    set (rest := skipn (Z.to_nat s) F).
    assert (Hrest : len rest = len F - s).
    { unfold rest, len. rewrite length_skipn. unfold len in Hlt. lia. }
    remember (firstn (Z.to_nat b) rest) as buffer eqn:Ebuf.
    assert (Hbuf : len buffer = Z.min b (len F - s)).
    { rewrite Ebuf. unfold len at 1. rewrite length_firstn. unfold len in Hrest |- *. lia. }
    assert (Hne : buffer <> []).
    { intros ->. unfold len in Hbuf at 1. cbn in Hbuf. lia. }
    destruct buffer as [|c buffer']; [congruence|]. clear Hne.
    set (buffer := c :: buffer') in *.
    set (tell2 := s + len buffer).
    rewrite IH; [| unfold tell2; lia | | unfold tell2; lia].
    2:{ intros H. right. unfold tell2 in *. lia. }
    f_equal. rewrite scan_buffer_all by exact HT.
    replace (tell2 - len buffer) with s by (unfold tell2; lia).
    rewrite (occurrences_split T rest (Z.to_nat (b - (len T - 1))) s HT).
    fold rest.
    replace (Z.to_nat (b - (len T - 1)) + length T - 1)%nat with (Z.to_nat b)
      by (unfold len in *; lia).
    rewrite <- Ebuf. f_equal.
    unfold rest. rewrite skipn_skipn.
    destruct (Z.lt_ge_cases tell2 (len F)) as [H2|H2].
    + (* more to read: the next read starts [len T - 1] bytes back *)
      assert (E : seek_start F T tell2 = s + Z.of_nat (Z.to_nat (b - (len T - 1)))).
      { unfold seek_start.
        replace (len T - 1 <=? tell2) with true
          by (symmetry; apply Z.leb_le; unfold tell2; lia).
        replace (tell2 <? len F) with true by (symmetry; apply Z.ltb_lt; lia).
        cbn [andb]. unfold tell2. lia. }
      rewrite E. f_equal. f_equal. lia.
    + (* the block reached the end of the file *)
      assert (E : seek_start F T tell2 = tell2).
      { unfold seek_start.
        replace (tell2 <? len F) with false by (symmetry; apply Z.ltb_ge; lia).
        rewrite andb_false_r. reflexivity. }
      rewrite E.
      rewrite (occurrences_short T (skipn (Z.to_nat tell2) F)).
      2:{ rewrite length_skipn. unfold len in *. lia. }
      rewrite occurrences_short; [reflexivity|].
      rewrite length_skipn. unfold tell2 in H2. unfold len in *. lia.
  - (* at the end of the file: the read is empty *)
    assert (Hs : s = tell).
    { unfold s, seek_start.
      replace (tell <? len F) with false by (symmetry; apply Z.ltb_ge; lia).
      rewrite andb_false_r. reflexivity. }
    rewrite Hs, skipn_all2 by (unfold len in Hge; lia).
    rewrite firstn_nil, occurrences_short; [reflexivity|].
    unfold len in Hn. cbn. lia.
Qed.

Lemma index_loop_one_block (F T : bytes) (b : Z) (fuel : nat) :
  T <> [] -> len F < b -> (2 <= fuel)%nat ->
  index_loop fuel b F T 0 = Some (occurrences T F 0).
Proof.
  intros HT Hb Hfuel.
  assert (Hn : 1 <= len T) by (destruct T; [congruence | rewrite len_cons; pose proof (len_nonneg T); lia]).
  destruct fuel as [|[|k]]; [lia | lia |].
  cbn [index_loop].
  assert (E0 : (if (len T - 1 <=? 0) && (0 <? len F) then 0 - (len T - 1) else 0) = 0).
  { destruct (len T - 1 <=? 0) eqn:E; [|reflexivity].
    apply Z.leb_le in E. destruct (0 <? len F); cbn [andb]; lia. }
  rewrite E0. unfold read.
  replace (b <? 0) with false by (symmetry; apply Z.ltb_ge; pose proof (len_nonneg F); lia).
  cbn [Z.to_nat skipn]. rewrite firstn_all2 by (unfold len in Hb; lia).
  destruct F as [|c F'] eqn:EF.
  - rewrite occurrences_short; [reflexivity|]. unfold len in Hn. cbn. lia.
  - rewrite <- EF in *. replace (0 + len F) with (len F) by lia.
    replace ((len T - 1 <=? len F) && (len F <? len F)) with false
      by (rewrite Z.ltb_irrefl, andb_false_r; reflexivity).
    rewrite skipn_all2 by (unfold len; lia). rewrite firstn_nil.
    rewrite scan_buffer_all by exact HT. rewrite app_nil_r. f_equal. f_equal. lia.
Qed.

Lemma index_loop_from_start (F T : bytes) (b : Z) (fuel : nat) :
  T <> [] -> len T <= b \/ len F < b -> (length F + 2 <= fuel)%nat ->
  index_loop fuel b F T 0 = Some (occurrences T F 0).
Proof.
  intros HT [Hb|Hb] Hfuel.
  - rewrite (index_loop_all F T b HT Hb); [| lia | intros _; left; reflexivity | unfold len; lia].
    assert (E : seek_start F T 0 = 0).
    { unfold seek_start. destruct (len T - 1 <=? 0) eqn:E; [|reflexivity].
      apply Z.leb_le in E. destruct (0 <? len F); cbn [andb]; [|reflexivity].
      destruct T; [congruence|]. rewrite len_cons in *. pose proof (len_nonneg T). lia. }
    rewrite E. reflexivity.
  - apply index_loop_one_block; [exact HT | exact Hb | lia].
Qed.

(** With a word one byte longer than the block, the source seeks back to
    where the last read began and never gets past the first block. *)
Lemma index_loop_stuck (F T : bytes) (b : Z) :
  len T = b + 1 -> 0 < b < len F ->
  forall (fuel : nat) (tell : Z), tell = 0 \/ tell = b ->
    index_loop fuel b F T tell = None.
Proof.
  intros HT Hb. induction fuel as [|k IH]; intros tell Htell; [reflexivity|].
  cbn [index_loop].
  assert (E0 : (if (len T - 1 <=? tell) && (tell <? len F)
                then tell - (len T - 1) else tell) = 0).
  { destruct Htell as [->| ->].
    - replace (len T - 1 <=? 0) with false by (symmetry; apply Z.leb_gt; lia).
      reflexivity.
    - replace (len T - 1 <=? b) with true by (symmetry; apply Z.leb_le; lia).
      replace (b <? len F) with true by (symmetry; apply Z.ltb_lt; lia).
      cbn [andb]. lia. }
  rewrite E0. unfold read.
  replace (b <? 0) with false by (symmetry; apply Z.ltb_ge; lia).
  cbn [Z.to_nat skipn].
  assert (Hlen : len (firstn (Z.to_nat b) F) = b).
  { unfold len in *. rewrite length_firstn. lia. }
  destruct (firstn (Z.to_nat b) F) as [|c buffer] eqn:E.
  - unfold len in Hlen. cbn in Hlen. lia.
  - rewrite Hlen. rewrite IH by (right; lia). reflexivity.
Qed.

(** C7: read in blocks of any size that holds the terminator, or in one
    block larger than the whole file, the scanner with its seek back by
    [len(T) - 1] yields one and the same sequence: the one its inner
    [find] loop yields on the whole file held in a single buffer. *)
Theorem index_block_size_independent
    (F T : bytes) (b1 b2 : Z) (fuel1 fuel2 : nat) :
  T <> [] ->
  len T <= b1 \/ len F < b1 ->
  len T <= b2 \/ len F < b2 ->
  (length F + 2 <= fuel1)%nat ->
  (length F + 2 <= fuel2)%nat ->
  index_loop fuel1 b1 F T 0 = Some (scan_buffer F T (len F)) /\
  index_loop fuel2 b2 F T 0 = index_loop fuel1 b1 F T 0.
Proof.
  intros HT H1 H2 Hf1 Hf2.
  rewrite !index_loop_from_start by assumption.
  rewrite scan_buffer_all by exact HT.
  replace (len F - len F) with 0 by lia. split; reflexivity.
Qed.

Lemma index_block_size_independent_witness :
  let F := B "xx$$$$abc$$$$$" in
  let T := B "$$$$" in
  index_loop 16 4 F T 0 = Some [2; 9; 10] /\
  index_loop 16 100 F T 0 = index_loop 16 4 F T 0.
Proof.
  intros F T.
  destruct (index_block_size_independent F T 4 100 16 16) as [E1 E2].
  - discriminate.
  - left. vm_compute. discriminate.
  - right. reflexivity.
  - vm_compute. lia.
  - vm_compute. lia.
  - split; [rewrite E1; reflexivity | exact E2].
Defined.

(** C2, as the code has it: for every file and every non-empty terminator
    no longer than the block size, the scanner ends and yields the
    positions of all occurrences of the terminator, overlapping ones
    included, each once and in strictly increasing order; nothing is
    yielded for an empty file or a file without the terminator. *)
Theorem index_yields_every_occurrence (F T : bytes) :
  T <> [] -> len T <= bsize ->
  exists offs : list Z,
    index F T = Some offs /\
    StronglySorted Z.lt offs /\
    (forall p, In p offs <-> occurs_at F T p) /\
    (F = [] -> offs = []) /\
    ((forall p, ~ occurs_at F T p) -> offs = []).
Proof.
  intros HT Hb. exists (occurrences T F 0). split; [|split; [|split; [|split]]].
  - unfold index, index_fuel. apply index_loop_from_start; [exact HT | left; exact Hb | lia].
  - apply occurrences_sorted.
  - intros p. apply occurrences_occurs_at. exact HT.
  - intros ->. apply occurrences_short. destruct T; [congruence | cbn; lia].
  - intros Hno. destruct (occurrences T F 0) as [|p l] eqn:E; [reflexivity|].
    exfalso. apply (Hno p). apply occurrences_occurs_at; [exact HT|].
    rewrite E. left. reflexivity.
Qed.

Lemma index_yields_every_occurrence_witness :
  exists offs : list Z,
    index (B "a$$b$$") (B "$$") = Some offs /\
    StronglySorted Z.lt offs /\
    (forall p, In p offs <-> occurs_at (B "a$$b$$") (B "$$") p) /\
    (B "a$$b$$" = [] -> offs = []) /\
    ((forall p, ~ occurs_at (B "a$$b$$") (B "$$") p) -> offs = []).
Proof.
  apply (index_yields_every_occurrence (B "a$$b$$") (B "$$")).
  - discriminate.
  - vm_compute. discriminate.
Defined.

(** C2, as stated, fails: in the file [aaa] the word [aa] occurs at 0 and
    at 1, the two occurrences share a byte, and the scanner yields both. *)
Lemma index_yields_overlapping_occurrences :
  index (B "aaa") (B "aa") = Some [0; 1] /\
  occurs_at (B "aaa") (B "aa") 0 /\
  occurs_at (B "aaa") (B "aa") 1 /\
  ~ non_overlapping (B "aa") [0; 1].
Proof.
  split; [vm_compute; reflexivity|].
  split; [split; [lia | reflexivity]|].
  split; [split; [lia | reflexivity]|].
  intros H. specialize (H 0 1). cbn in H.
  assert (0 + 2 <= 1) by (apply H; [left; reflexivity | right; left; reflexivity | lia]).
  lia.
Qed.

(** ** The class *)

Ltac bind_inv H :=
  repeat match type of H with
         | bind ?m _ = Ok _ =>
             let E := fresh "E" in
             destruct m eqn:E; cbn [bind] in H; [|discriminate H|discriminate H]
         end.

(** What [__init__] leaves in the object it returns. *)
Lemma init_attributes (F : bytes) (store : raw.RawStore) (sc nc : column)
    (h : bool) (sp : option bytes) (nf : option (bytes -> bytes))
    (self : MolFileIndex) :
  __init__ F store sc nc h sp nf = Ok self ->
  db self = store /\ filename self = F /\ hasHeader self = h /\ sep self = sp /\
  N self = (if h then raw.N store - 3 else raw.N store - 2) /\
  (is_not_minus_one sc = false -> smilesColIdx self = None) /\
  (is_not_minus_one nc = false -> nameidx self = None) /\
  _nameGetter self = None.
Proof.
  unfold __init__. intros H. bind_inv H.
  injection H as <-. cbn.
  repeat split.
  - intros Hsc. rewrite Hsc in *. congruence.
  - intros Hnc. rewrite Hnc in *. congruence.
Qed.

(** C10: built with the integer default [smilesColumn = -1], the object
    has no attribute [smilesColIdx], and every [getMol(idx)] fails with an
    attribute error; the branch that returns the whole record is never
    reached. *)
Theorem getMol_default_smilesColumn (F : bytes) (store : raw.RawStore)
    (nc : column) (h : bool) (sp : option bytes) (nf : option (bytes -> bytes))
    (self : MolFileIndex) (idx : Z) :
  __init__ F store (ColInt (-1)) nc h sp nf = Ok self ->
  smilesColIdx self = None /\
  getMol self idx = Raise (AttributeError "smilesColIdx").
Proof.
  intros H. apply init_attributes in H.
  destruct H as (_ & _ & _ & _ & _ & Hs & _). specialize (Hs eq_refl).
  split; [exact Hs|]. unfold getMol. rewrite Hs. reflexivity.
Qed.

Lemma getMol_default_smilesColumn_witness :
  exists self : MolFileIndex,
    __init__ smiles_file smiles_file_index (ColInt (-1)) (ColInt (-1)) false None None
    = Ok self /\
    smilesColIdx self = None /\
    getMol self 0 = Raise (AttributeError "smilesColIdx").
Proof.
  eexists. split; [vm_compute; reflexivity|].
  apply (getMol_default_smilesColumn
           smiles_file smiles_file_index (ColInt (-1)) false None None).
  vm_compute. reflexivity.
Defined.

(** C9, on the code: built with [nameColumn = -1], the object has no
    attribute [nameidx], and [getName] fails with an attribute error
    before it reaches the [ValueError] the claim expects. *)
Theorem getName_default_nameColumn (F : bytes) (store : raw.RawStore)
    (sc : column) (h : bool) (sp : option bytes) (nf : option (bytes -> bytes))
    (self : MolFileIndex) (idx : Z) :
  __init__ F store sc (ColInt (-1)) h sp nf = Ok self ->
  nameidx self = None /\ _nameGetter self = None /\
  getName self idx = Raise (AttributeError "nameidx").
Proof.
  intros H. apply init_attributes in H.
  destruct H as (_ & _ & _ & _ & _ & _ & Hn & Hg). specialize (Hn eq_refl).
  split; [exact Hn|]. split; [exact Hg|]. unfold getName. rewrite Hn. reflexivity.
Qed.

Lemma getName_default_nameColumn_witness :
  exists self : MolFileIndex,
    __init__ smiles_file smiles_file_index (ColInt 0) (ColInt (-1)) false None None
    = Ok self /\
    nameidx self = None /\ _nameGetter self = None /\
    getName self 0 = Raise (AttributeError "nameidx").
Proof.
  eexists. split; [vm_compute; reflexivity|].
  apply (getName_default_nameColumn
           smiles_file smiles_file_index (ColInt 0) false None None).
  vm_compute. reflexivity.
Defined.

(** C4, on the code: with a header, [get] adds one to the row and [_get]
    adds one again, so [get(i)] reads physical row [i+2]; [_get(i)], which
    [getMol] and [getName] call, reads physical row [i+1]. *)
Theorem get_with_header_shifts_twice (self : MolFileIndex) (i : Z) :
  hasHeader self = true ->
  get self i = read_record (db self) (filename self) (sep self) (i + 2) /\
  _get self (Some i) = read_record (db self) (filename self) (sep self) (i + 1).
Proof.
  intros H. unfold get, _get, _get_on, resolve_row. rewrite H.
  split; [|reflexivity]. f_equal. lia.
Qed.

Lemma get_with_header_shifts_twice_witness :
  exists self : MolFileIndex,
    MakeSmilesIndex refuse header_file true (ColInt 0) (ColInt (-1)) None = Ok self /\
    db self = header_file_index /\
    get self 0 = Ok (Str (B "b")) /\
    _get self (Some 0) = Ok (Str (B "a")).
Proof.
  eexists. split; [vm_compute; reflexivity|].
  split; [reflexivity|].
  match goal with
  | |- get ?s 0 = _ /\ _ =>
      destruct (get_with_header_shifts_twice s 0 eq_refl) as [E1 E2];
      rewrite E1, E2
  end.
  split; vm_compute; reflexivity.
Defined.

(** C5, as the code has it: on a file of plain text (a character read in
    text mode is a byte of the file), when the stored offsets of the
    resolved physical row [p] satisfy
    [offset[p] < offset[p+1] <= len(file)], [_get] reads exactly
    [offset[p+1] - offset[p] - 1] bytes from [offset[p]]: one byte less
    than the span whatever the terminator; the result is split on a
    non-empty separator and is the raw span otherwise. *)
Theorem record_read_span_less_one (self : MolFileIndex) (idx : option Z)
    (start end_ : Z) (more0 more1 : list Z) :
  plain_text (filename self) ->
  raw.get (db self) (resolve_row (hasHeader self) idx) = Ok (start :: more0) ->
  raw.get (db self) (resolve_row (hasHeader self) idx + 1) = Ok (end_ :: more1) ->
  0 <= start < end_ ->
  end_ <= len (filename self) ->
  let buf := firstn (Z.to_nat (end_ - start - 1))
                    (skipn (Z.to_nat start) (filename self)) in
  len buf = end_ - start - 1 /\
  _get self idx = Ok (match sep self with
                      | Some ((_ :: _) as sp) => StrList (split buf sp)
                      | _ => Str buf
                      end).
Proof.
  intros _ H0 H1 Hlt Hle buf. split.
  - unfold buf, len in *. rewrite length_firstn, length_skipn. lia.
  - unfold _get, _get_on, read_record. rewrite H0. cbn [bind first_column].
    rewrite H1. cbn [bind first_column]. unfold read.
    replace (end_ - start - 1 <? 0) with false by (symmetry; apply Z.ltb_ge; lia).
    fold buf. destruct (sep self) as [[|c sp]|]; reflexivity.
Qed.

Lemma record_read_span_less_one_witness :
  exists self : MolFileIndex,
    __init__ smiles_file smiles_file_index (ColInt 0) (ColInt 1) false (Some (B ",")) None
    = Ok self /\
    _get self (Some 1) = Ok (StrList [B "bb"; B "2"]).
Proof.
  eexists. split; [vm_compute; reflexivity|].
  match goal with
  | |- _get ?s _ = _ =>
      destruct (record_read_span_less_one s (Some 1) 4 9 [] []) as [_ E];
      [reflexivity | reflexivity | reflexivity | lia | vm_compute; discriminate
      | rewrite E]
  end.
  vm_compute. reflexivity.
Defined.

(** C5, as stated, fails for the SDF terminator: on the index [0, 7] of
    the one-record file ["M\n$$$$\n"], [_get(0)] reads [7 - 0 - 1 = 6]
    bytes, the record with its ["$$$$"], not [7 - 0 - 5 = 2]. *)
Lemma record_read_keeps_sdf_terminator :
  exists (store : raw.RawStore) (self : MolFileIndex),
    sdf_file_index = Ok store /\
    __init__ sdf_file store (ColInt (-1)) (ColInt (-1)) false None (Some SDFNameGetter)
    = Ok self /\
    raw.get (db self) 0 = Ok [0] /\
    raw.get (db self) 1 = Ok [7] /\
    _get self (Some 0) = Ok (Str (B "M" ++ [LF] ++ B "$$$$")) /\
    len (B "M" ++ [LF] ++ B "$$$$") = 6 /\
    7 - 0 - len sdf_terminator = 2.
Proof.
  eexists. eexists. split; [vm_compute; reflexivity|].
  split; [vm_compute; reflexivity|].
  repeat split.
Qed.

(** ** The builders *)

Lemma count_loop (A : Type) (l : list A) (a : Z) :
  fold_left (fun lines _ => lines + 1) l a = a + len l.
Proof.
  revert a. induction l as [|x l IH]; intros a; cbn [fold_left].
  - unfold len. cbn. lia.
  - rewrite IH, len_cons. lia.
Qed.

Lemma simplecount_lines (F : bytes) : simplecount F = len (readlines F).
Proof. unfold simplecount. rewrite count_loop. lia. Qed.

Lemma simplecount_nonneg (F : bytes) : 0 <= simplecount F.
Proof. rewrite simplecount_lines. apply len_nonneg. Qed.

Lemma fits_zero (d : raw.dtype) : raw.fits d 0 = true.
Proof. destruct d; reflexivity. Qed.

Lemma putRow_shape (narrow : raw.dtype -> Z -> option Z)
    (st st' : raw.RawStore) (idx : Z) (row : list Z) :
  raw.putRow narrow st idx row = Ok st' ->
  raw.columns st' = raw.columns st /\ raw.N st' = raw.N st.
Proof.
  unfold raw.putRow. intros H.
  destruct ((0 <=? idx) && (idx <? raw.N st)); [|discriminate H].
  destruct (Nat.eqb (length row) (length (raw.columns st))); [|discriminate H].
  destruct (raw.cells narrow (raw.columns st) row); [|discriminate H].
  injection H as <-. split; reflexivity.
Qed.

Lemma for_enumerate_keeps (A S : Type) (P : S -> Prop)
    (body : S -> Z -> A -> outcome S) :
  (forall s i x s', P s -> body s i x = Ok s' -> P s') ->
  forall (xs : list A) (i : Z) (s s' : S),
    P s -> for_enumerate body i xs s = Ok s' -> P s'.
Proof.
  intros Hbody. induction xs as [|x xs IH]; intros i s s' Hs H; cbn [for_enumerate] in H.
  - injection H as <-. exact Hs.
  - destruct (body s i x) as [s1| |] eqn:E; cbn [bind] in H; try discriminate H.
    apply (IH (i + 1) s1 s'); [|exact H]. exact (Hbody s i x s1 Hs E).
Qed.

(** The first write of both builders, [db.putRow(0, [0])], goes through. *)
Lemma putRow_first (narrow : raw.dtype -> Z -> option Z) (d : raw.dtype) (n : Z) :
  0 < n ->
  raw.putRow narrow (raw.MakeStore [("index"%string, d)] n) 0 [0]
  = Ok {| raw.columns := [("index"%string, d)];
          raw.N := n;
          raw.rows := raw.update (repeat [0] (Z.to_nat n)) 0 [0] |}.
Proof.
  intros Hn. unfold raw.putRow, raw.MakeStore. cbn [raw.N raw.columns raw.rows].
  replace ((0 <=? 0) && (0 <? n)) with true
    by (symmetry; apply andb_true_iff; split; [reflexivity | apply Z.ltb_lt; exact Hn]).
  cbn. unfold raw.cell. rewrite fits_zero. reflexivity.
Qed.

(** C1, on the code: for ["a,1\nbb,2\ncc,3\n"] without a header the stored
    offsets are [0, 4, 9, 14], [get(0)] is ["a,1"] and [get(2)] is
    ["cc,3"], but the record count [N] is [db.N - 2 = 4 - 2 = 2], not 3. *)
Theorem smiles_scenario (narrow : raw.dtype -> Z -> option Z) :
  simplecount smiles_file = 3 /\
  smiles_store narrow smiles_file = Ok smiles_file_index /\
  exists self : MolFileIndex,
    MakeSmilesIndex narrow smiles_file false (ColInt 0) (ColInt (-1)) None = Ok self /\
    raw.rows (db self) = [[0]; [4]; [9]; [14]] /\
    raw.N (db self) = 4 /\
    N self = 2 /\
    get self 0 = Ok (Str (B "a,1")) /\
    get self 2 = Ok (Str (B "cc,3")).
Proof.
  split; [vm_compute; reflexivity|].
  split; [vm_compute; reflexivity|].
  eexists. split; [vm_compute; reflexivity|].
  repeat split.
Qed.

(** C3, on the code: as soon as the file holds one SDF terminator,
    [MakeSDFIndex] stops at its first [db.putRow(i+1, [pos+1])] with a
    [NameError]: [pos] is the loop variable of [MakeSmilesIndex], bound
    nowhere in [MakeSDFIndex].  No offset beyond [offset[0]] is written. *)
Theorem MakeSDFIndex_raises_NameError (narrow : raw.dtype -> Z -> option Z)
    (F : bytes) (p : Z) (later : list Z) :
  index F sdf_terminator = Some (p :: later) ->
  sdf_store narrow F = Raise (NameError "pos") /\
  MakeSDFIndex narrow F = Raise (NameError "pos").
Proof.
  intros H.
  assert (E : sdf_store narrow F = Raise (NameError "pos")).
  { unfold sdf_store, run_index. rewrite H. cbn [bind].
    rewrite putRow_first by (pose proof (simplecount_nonneg F); lia).
    reflexivity. }
  split; [exact E|]. unfold MakeSDFIndex. rewrite E. reflexivity.
Qed.

Lemma MakeSDFIndex_raises_NameError_witness :
  index sdf_file sdf_terminator = Some [2] /\
  sdf_store refuse sdf_file = Raise (NameError "pos") /\
  MakeSDFIndex refuse sdf_file = Raise (NameError "pos").
Proof.
  assert (H : index sdf_file sdf_terminator = Some [2]) by (vm_compute; reflexivity).
  split; [exact H|].
  exact (MakeSDFIndex_raises_NameError refuse sdf_file 2 [] H).
Defined.

Lemma offset_dtype_smallest (n : Z) :
  0 <= n < 2 ^ 64 -> offset_dtype n = width_for n.
Proof.
  intros Hn. unfold offset_dtype, width_for, raw.fits.
  replace (0 <=? n) with true by (symmetry; apply Z.leb_le; lia).
  cbn [andb filter raw.width].
  change (8 * 1) with 8. change (8 * 2) with 16.
  change (8 * 4) with 32. change (8 * 8) with 64.
  destruct (n <? 2 ^ 8) eqn:E8; [reflexivity|].
  destruct (n <? 2 ^ 16) eqn:E16; [reflexivity|].
  destruct (n <? 2 ^ 32) eqn:E32; [reflexivity|].
  replace (n <? 2 ^ 64) with true by (symmetry; apply Z.ltb_lt; lia).
  reflexivity.
Qed.

(** Both builders after their first write. *)
Lemma smiles_store_after_first (narrow : raw.dtype -> Z -> option Z) (F : bytes) :
  smiles_store narrow F
  = (offsets <- run_index F [LF] ;;
     for_enumerate (fun st i pos => raw.putRow narrow st (i + 1) [pos + 1])
       0 offsets
       {| raw.columns := [("index"%string, offset_dtype (simplecount F))];
          raw.N := simplecount F + 1;
          raw.rows := raw.update (repeat [0] (Z.to_nat (simplecount F + 1))) 0 [0] |}).
Proof.
  pose proof (simplecount_nonneg F) as Hn.
  unfold smiles_store. rewrite putRow_first by lia. reflexivity.
Qed.

Lemma sdf_store_after_first (narrow : raw.dtype -> Z -> option Z) (F : bytes) :
  sdf_store narrow F
  = (indices <- run_index F sdf_terminator ;;
     for_enumerate (fun st i (idx : Z) =>
                      pos <- (Raise (NameError "pos") : outcome Z) ;;
                      raw.putRow narrow st (i + 1) [pos + 1])
       0 indices
       {| raw.columns := [("index"%string, offset_dtype (simplecount F))];
          raw.N := simplecount F + 1;
          raw.rows := raw.update (repeat [0] (Z.to_nat (simplecount F + 1))) 0 [0] |}).
Proof.
  pose proof (simplecount_nonneg F) as Hn.
  unfold sdf_store. destruct (run_index F sdf_terminator); cbn [bind]; try reflexivity.
  rewrite putRow_first by lia. reflexivity.
Qed.

(** C8, as stated, fails: the type follows the line count, not the number
    of terminator-delimited records.  An SDF file of 256 empty lines has no
    record and gets a [uint16] column; a SMILES file of 255 newlines and an
    open last line has 255 terminators and gets [uint16] too; one byte
    covers either record count. *)
Lemma dtype_follows_line_count :
  (index blank_lines_file sdf_terminator = Some [] /\
   width_for (len (@nil Z)) = raw.uint8 /\
   exists st, sdf_store refuse blank_lines_file = Ok st /\
              raw.columns st = [("index"%string, raw.uint16)]) /\
  (exists offsets,
     index open_last_line_file [LF] = Some offsets /\
     len offsets = 255 /\
     width_for (len offsets) = raw.uint8 /\
     exists st, smiles_store refuse open_last_line_file = Ok st /\
                raw.columns st = [("index"%string, raw.uint16)]).
Proof.
  split.
  - split; [vm_compute; reflexivity|]. split; [reflexivity|].
    eexists. split; [vm_compute; reflexivity | reflexivity].
  - eexists. split; [vm_compute; reflexivity|].
    split; [reflexivity|]. split; [reflexivity|].
    eexists. split; [vm_compute; reflexivity | reflexivity].
Qed.

Lemma wrap_fits (d : raw.dtype) (v v' : Z) :
  wrap d v = Some v' -> raw.fits d v' = true.
Proof.
  unfold wrap, raw.fits. intros H. injection H as <-.
  assert (Hpos : 0 < 2 ^ (8 * raw.width d)) by (destruct d; reflexivity).
  pose proof (Z.mod_pos_bound v _ Hpos) as Hb.
  apply andb_true_iff. split; [apply Z.leb_le | apply Z.ltb_lt]; apply Hb.
Qed.

(** C6, on the code: a file of one 299-byte line and its newline has one
    line, so the offset column is [uint8]; the position one past its
    terminator is 300, which no one-byte cell holds: whatever the store
    does with the value, either the builder fails or [offset[1]] is not
    300 (and with it [offset[L]] is not the end-of-data position). *)
Theorem smiles_index_overflows (narrow : raw.dtype -> Z -> option Z) :
  (forall d v v', narrow d v = Some v' -> raw.fits d v' = true) ->
  simplecount long_line_file = 1 /\
  offset_dtype (simplecount long_line_file) = raw.uint8 /\
  index long_line_file [LF] = Some [299] /\
  len long_line_file = 300 /\
  forall st, smiles_store narrow long_line_file = Ok st ->
             exists v, raw.get st 1 = Ok [v] /\ v < 2 ^ 8 /\ v <> 300.
Proof.
  intros Hnarrow.
  split; [vm_compute; reflexivity|].
  split; [vm_compute; reflexivity|].
  split; [vm_compute; reflexivity|].
  split; [vm_compute; reflexivity|].
  intros st.
  rewrite smiles_store_after_first.
  replace (run_index long_line_file [LF]) with (Ok [299]) by (vm_compute; reflexivity).
  replace (simplecount long_line_file) with 1 by (vm_compute; reflexivity).
  cbn. destruct (narrow raw.uint8 300) as [v|] eqn:En; cbn; [|discriminate].
  intros H. injection H as <-. exists v.
  apply Hnarrow in En. unfold raw.fits in En. apply andb_true_iff in En.
  destruct En as [_ En]. apply Z.ltb_lt in En.
  change (2 ^ (8 * raw.width raw.uint8)) with 256 in En.
  split; [reflexivity|]. split; [exact En | lia].
Qed.

Lemma smiles_index_overflows_witness :
  smiles_store wrap long_line_file
  = Ok (raw.mkRawStore [("index"%string, raw.uint8)] 2 [[0]; [44]]) /\
  smiles_store refuse long_line_file = Raise ValueNotStorable /\
  forall st, smiles_store wrap long_line_file = Ok st ->
             exists v, raw.get st 1 = Ok [v] /\ v < 2 ^ 8 /\ v <> 300.
Proof.
  split; [vm_compute; reflexivity|].
  split; [vm_compute; reflexivity|].
  exact (proj2 (proj2 (proj2 (proj2 (smiles_index_overflows wrap wrap_fits))))).
Defined.

(** ** What [MakeSmilesIndex] stores when every offset fits its column *)

Lemma update_at_end (A : Type) (pre : list A) (z v : A) (zs : list A) :
  raw.update (pre ++ z :: zs) (length pre) v = pre ++ v :: zs.
Proof.
  induction pre as [|a pre IH]; cbn [app length raw.update].
  - reflexivity.
  - rewrite IH. reflexivity.
Qed.

Lemma offsets_loop (narrow : raw.dtype -> Z -> option Z) (d : raw.dtype)
    (name : string) (n : Z) :
  forall (xs : list Z) (i : Z) (pre zs : list (list Z)),
    (forall p, In p xs -> raw.fits d (p + 1) = true) ->
    i + 1 = len pre ->
    n = len (pre ++ zs) ->
    (length xs <= length zs)%nat ->
    for_enumerate (fun st j pos => raw.putRow narrow st (j + 1) [pos + 1]) i xs
      {| raw.columns := [(name, d)]; raw.N := n; raw.rows := pre ++ zs |}
    = Ok {| raw.columns := [(name, d)];
            raw.N := n;
            raw.rows := pre ++ map (fun p => [p + 1]) xs ++ skipn (length xs) zs |}.
Proof.
  induction xs as [|x xs IH]; intros i pre zs Hfit Hi Hn Hlen.
  - reflexivity.
  - destruct zs as [|z zs]; [cbn in Hlen; lia|].
    cbn [for_enumerate]. unfold raw.putRow at 1. cbn [raw.N raw.columns raw.rows].
    assert (Hrange : (0 <=? i + 1) && (i + 1 <? n) = true).
    { apply andb_true_iff. pose proof (len_nonneg pre).
      split; [apply Z.leb_le; lia | apply Z.ltb_lt].
      rewrite Hn. unfold len in *. rewrite length_app. cbn [length]. lia. }
    rewrite Hrange. cbn [length Nat.eqb raw.cells]. unfold raw.cell.
    rewrite (Hfit x (or_introl eq_refl)).
    replace (Z.to_nat (i + 1)) with (length pre) by (unfold len in Hi; lia).
    rewrite update_at_end. cbn [bind].
    replace (pre ++ [x + 1] :: zs) with ((pre ++ [[x + 1]]) ++ zs)
      by (rewrite <- app_assoc; reflexivity).
    rewrite IH.
    + rewrite <- app_assoc. reflexivity.
    + intros p Hp. apply Hfit. right. exact Hp.
    + unfold len in *. rewrite length_app. cbn [length]. lia.
    + rewrite Hn. unfold len. rewrite !length_app. cbn [length]. lia.
    + cbn [length] in Hlen. lia.
Qed.

Lemma newlines_le_lines (F cur : bytes) (i : Z) :
  (length (occurrences [LF] F i) <= length (readlines_from cur F))%nat.
Proof.
  revert cur i. induction F as [|c F IH]; intros cur i.
  - cbn. lia.
  - cbn [occurrences readlines_from starts_with]. rewrite andb_true_r.
    destruct (Byte.eqb c LF) eqn:E.
    + apply byte_eqb_eq in E. subst c.
      replace (Byte.eqb LF LF) with true by reflexivity.
      cbn [app length]. specialize (IH [] (i + 1)). lia.
    + assert (E' : Byte.eqb LF c = false).
      { destruct (Byte.eqb LF c) eqn:E'; [|reflexivity].
        apply byte_eqb_eq in E'. subst c. discriminate E. }
      rewrite E'. cbn [app]. apply IH.
Qed.

Lemma occurrence_inside (T F : bytes) (p : Z) :
  T <> [] -> In p (occurrences T F 0) -> 0 <= p /\ p + len T <= len F.
Proof.
  intros HT Hp. apply occurrences_occurs_at in Hp; [|exact HT].
  destruct Hp as [H0 Hp]. split; [exact H0|].
  apply (f_equal (@length byte)) in Hp.
  rewrite length_firstn, length_skipn in Hp.
  assert (0 < length T)%nat by (destruct T; [congruence | cbn; lia]).
  unfold len. lia.
Qed.

(** The part of C3 and C6 that [MakeSmilesIndex] does keep: when the file
    size fits the element type chosen from the line count, the store holds
    [0] and then [p + 1] for each newline position [p], in order; the
    remaining row (a last line without a newline has one) stays zero. *)
Lemma smiles_store_offsets (narrow : raw.dtype -> Z -> option Z) (F : bytes) :
  len F < 2 ^ (8 * raw.width (offset_dtype (simplecount F))) ->
  smiles_store narrow F
  = Ok {| raw.columns := [("index"%string, offset_dtype (simplecount F))];
          raw.N := simplecount F + 1;
          raw.rows :=
            [0] :: map (fun p => [p + 1]) (occurrences [LF] F 0)
                ++ skipn (length (occurrences [LF] F 0))
                         (repeat [0] (Z.to_nat (simplecount F))) |}.
Proof.
  intros Hsize. pose proof (simplecount_nonneg F) as Hn.
  rewrite smiles_store_after_first. unfold run_index, index, index_fuel.
  rewrite index_loop_from_start; [| discriminate | left; vm_compute; discriminate | lia].
  cbn [bind].
  replace (Z.to_nat (simplecount F + 1)) with (S (Z.to_nat (simplecount F))) by lia.
  cbn [repeat raw.update].
  apply (offsets_loop narrow _ _ _ _ 0 [[0]]).
  - intros p Hp. apply occurrence_inside in Hp; [|discriminate].
    unfold raw.fits. apply andb_true_iff.
    change (len [LF]) with 1 in Hp.
    split; [apply Z.leb_le | apply Z.ltb_lt]; lia.
  - reflexivity.
  - unfold len. cbn [app length]. rewrite repeat_length. lia.
  - rewrite repeat_length. pose proof (newlines_le_lines F [] 0) as H.
    rewrite simplecount_lines. unfold readlines, len. lia.
Qed.

(** ** Lines and newlines *)

Lemma occurrences_LF_cons (c : byte) (X : bytes) (i : Z) :
  occurrences [LF] (c :: X) i
  = (if Byte.eqb c LF then [i] else []) ++ occurrences [LF] X (i + 1).
Proof.
  cbn [occurrences starts_with]. rewrite andb_true_r.
  destruct (Byte.eqb c LF) eqn:E.
  - apply byte_eqb_eq in E. subst c. reflexivity.
  - destruct (Byte.eqb LF c) eqn:E'; [|reflexivity].
    apply byte_eqb_eq in E'. subst c. discriminate E.
Qed.

Lemma byte_eqb_LF_false (c : byte) : c <> LF -> Byte.eqb c LF = false.
Proof.
  intros H. destruct (Byte.eqb c LF) eqn:E; [|reflexivity].
  apply byte_eqb_eq in E. contradiction.
Qed.

Lemma occurrences_LF_line (l X : bytes) (i : Z) :
  no_LF l -> occurrences [LF] (l ++ X) i = occurrences [LF] X (i + len l).
Proof.
  revert i. induction l as [|c l IH]; intros i Hl.
  - cbn [app]. f_equal. unfold len. cbn. lia.
  - cbn [app]. rewrite occurrences_LF_cons.
    rewrite byte_eqb_LF_false by (intros ->; apply Hl; left; reflexivity).
    cbn [app]. rewrite IH by (intros H; apply Hl; right; exact H).
    f_equal. rewrite len_cons. lia.
Qed.

Lemma occurrences_write_lines (ls : list bytes) (t : bytes) (i : Z) :
  Forall no_LF ls -> no_LF t ->
  occurrences [LF] (write_lines ls t) i = line_ends ls i.
Proof.
  intros Hls Ht. revert i. induction Hls as [|l ls Hl Hls IH]; intros i.
  - cbn [write_lines line_ends].
    rewrite <- (app_nil_r t), occurrences_LF_line by exact Ht. reflexivity.
  - cbn [write_lines line_ends]. rewrite occurrences_LF_line by exact Hl.
    rewrite occurrences_LF_cons. replace (Byte.eqb LF LF) with true by reflexivity.
    cbn [app]. rewrite IH. reflexivity.
Qed.

Lemma line_ends_length (ls : list bytes) (i : Z) :
  length (line_ends ls i) = length ls.
Proof.
  revert i. induction ls as [|l ls IH]; intros i; cbn [line_ends length].
  - reflexivity.
  - rewrite IH. reflexivity.
Qed.

Lemma ends_open_after_LF (A X : bytes) :
  ends_open (A ++ LF :: X) = ends_open X.
Proof.
  unfold ends_open. rewrite rev_app_distr. cbn [rev].
  destruct (rev X) as [|c r] eqn:E; cbn [app]; reflexivity.
Qed.

Lemma lines_count (F cur : bytes) (i : Z) :
  no_LF cur ->
  length (readlines_from cur F)
  = (length (occurrences [LF] F i)
     + if ends_open (rev cur ++ F) then 1 else 0)%nat.
Proof.
  revert cur i. induction F as [|c F IH]; intros cur i Hcur.
  - cbn [readlines_from occurrences starts_with app length].
    rewrite app_nil_r. unfold ends_open. rewrite rev_involutive.
    destruct cur as [|c cur]; [reflexivity|].
    rewrite byte_eqb_LF_false by (intros ->; apply Hcur; left; reflexivity).
    reflexivity.
  - cbn [readlines_from]. rewrite occurrences_LF_cons.
    destruct (Byte.eqb c LF) eqn:E.
    + apply byte_eqb_eq in E. subst c. rewrite ends_open_after_LF.
      cbn [app length]. rewrite (IH [] (i + 1)) by (intros []). reflexivity.
    + cbn [app]. rewrite (IH (c :: cur) (i + 1)).
      * cbn [rev]. rewrite <- app_assoc. reflexivity.
      * intros [->|H]; [discriminate E | exact (Hcur H)].
Qed.

(** The scanner on newlines always ends, whatever the file. *)
Lemma index_newlines (F : bytes) : index F [LF] = Some (occurrences [LF] F 0).
Proof.
  unfold index, index_fuel.
  apply index_loop_from_start; [discriminate | left; vm_compute; discriminate | lia].
Qed.

(** X1: [simplecount] against the scanner, on a file of plain text: the
    line count is the number of newline offsets [index] yields, plus one
    when the last byte of the file is not a newline. *)
Theorem simplecount_counts_newlines (F : bytes) :
  plain_text F ->
  exists offsets : list Z,
    index F [LF] = Some offsets /\
    simplecount F = len offsets + (if ends_open F then 1 else 0).
Proof.
  intros _. exists (occurrences [LF] F 0). split; [apply index_newlines|].
  rewrite simplecount_lines. unfold readlines, len.
  rewrite (lines_count F [] 0) by (intros []). cbn [rev app].
  destruct (ends_open F); lia.
Qed.

Lemma simplecount_counts_newlines_witness :
  exists offsets : list Z,
    index open_last_line_file [LF] = Some offsets /\
    simplecount open_last_line_file = len offsets + 1.
Proof.
  destruct (simplecount_counts_newlines open_last_line_file) as (offsets & H1 & H2).
  - reflexivity.
  - exists offsets. split; [exact H1|]. rewrite H2. reflexivity.
Defined.

(** ** Reading back what [MakeSmilesIndex] indexed *)

(** Record [p] of a file written line by line starts at entry [p] of the
    offsets and ends, newline included, at entry [p + 1]. *)
Lemma record_span (ls : list bytes) (t : bytes) :
  forall (i : Z) (p : nat) (line : bytes),
    nth_error ls p = Some line ->
    exists a : Z,
      nth_error (i :: map (fun q => q + 1) (line_ends ls i)) p = Some a /\
      nth_error (i :: map (fun q => q + 1) (line_ends ls i)) (S p)
      = Some (a + len line + 1) /\
      i <= a /\
      firstn (length line) (skipn (Z.to_nat (a - i)) (write_lines ls t)) = line.
Proof.
  induction ls as [|l ls IH]; intros i p line Hp.
  - destruct p; discriminate Hp.
  - destruct p as [|p]; cbn [nth_error] in Hp.
    + injection Hp as ->. exists i. cbn [line_ends map nth_error write_lines].
      repeat split; [lia|].
      replace (Z.to_nat (i - i)) with 0%nat by lia. cbn [skipn].
      rewrite firstn_app, Nat.sub_diag, firstn_all. cbn [firstn]. apply app_nil_r.
    + destruct (IH (i + len l + 1) p line Hp) as (a & H1 & H2 & Ha & Hline).
      exists a. cbn [line_ends map]. split; [exact H1|]. split; [exact H2|].
      pose proof (len_nonneg l) as Hl. split; [lia|].
      cbn [write_lines].
      replace (Z.to_nat (a - i))
        with (S (Z.to_nat (a - (i + len l + 1))) + length l)%nat
        by (unfold len in *; lia).
      rewrite <- skipn_skipn, skipn_app, skipn_all, Nat.sub_diag.
      cbn [app skipn]. exact Hline.
Qed.

(** The last line, the one without a newline, starts at the last offset. *)
Lemma tail_span (ls : list bytes) (t : bytes) :
  forall i : Z,
    exists a : Z,
      nth_error (i :: map (fun q => q + 1) (line_ends ls i)) (length ls) = Some a /\
      i <= a /\
      skipn (Z.to_nat (a - i)) (write_lines ls t) = t.
Proof.
  induction ls as [|l ls IH]; intros i.
  - exists i. cbn [line_ends map nth_error length write_lines].
    repeat split; [lia|]. replace (Z.to_nat (i - i)) with 0%nat by lia. reflexivity.
  - destruct (IH (i + len l + 1)) as (a & H1 & Ha & Ht).
    exists a. cbn [line_ends map length nth_error]. split; [exact H1|].
    pose proof (len_nonneg l) as Hl. split; [lia|].
    cbn [write_lines].
    replace (Z.to_nat (a - i))
      with (S (Z.to_nat (a - (i + len l + 1))) + length l)%nat
      by (unfold len in *; lia).
    rewrite <- skipn_skipn, skipn_app, skipn_all, Nat.sub_diag.
    cbn [app skipn]. exact Ht.
Qed.

Lemma newlines_le_simplecount (F : bytes) :
  len (occurrences [LF] F 0) <= simplecount F.
Proof.
  rewrite simplecount_lines. unfold len, readlines.
  pose proof (newlines_le_lines F [] 0). lia.
Qed.

(** The rows of the store [MakeSmilesIndex] fills, read with [get]: the
    offsets first, zero in what is left. *)
Lemma smiles_store_rows (narrow : raw.dtype -> Z -> option Z) (F : bytes) :
  len F < 2 ^ (8 * raw.width (offset_dtype (simplecount F))) ->
  exists st : raw.RawStore,
    smiles_store narrow F = Ok st /\
    raw.N st = simplecount F + 1 /\
    (forall (k : nat) (a : Z),
        nth_error (0 :: map (fun q => q + 1) (occurrences [LF] F 0)) k = Some a ->
        raw.get st (Z.of_nat k) = Ok [a]) /\
    (forall k : Z,
        len (occurrences [LF] F 0) < k <= simplecount F ->
        raw.get st k = Ok [0]).
Proof.
  intros Hsize. rewrite (smiles_store_offsets narrow F Hsize).
  eexists. split; [reflexivity|]. cbn [raw.N]. split; [reflexivity|].
  pose proof (newlines_le_simplecount F) as Hle.
  set (occs := occurrences [LF] F 0) in *.
  assert (Erows : forall zs : list (list Z),
             [0] :: map (fun p => [p + 1]) occs ++ zs
             = map (fun x => [x]) (0 :: map (fun q => q + 1) occs) ++ zs).
  { intros zs. cbn [map app]. rewrite map_map. reflexivity. }
  split.
  - intros k a Hk. unfold raw.get. cbn [raw.N raw.rows].
    assert (Hlt : (k < length (0%Z :: map (fun q => (q + 1)%Z) occs))%nat)
      by (apply nth_error_Some; congruence).
    cbn [length] in Hlt. rewrite length_map in Hlt.
    replace ((0 <=? Z.of_nat k) && (Z.of_nat k <? simplecount F + 1)) with true
      by (symmetry; apply andb_true_iff; split;
          [apply Z.leb_le | apply Z.ltb_lt]; unfold len in Hle; lia).
    rewrite Nat2Z.id, Erows, nth_error_app1
      by (rewrite length_map; cbn [length]; rewrite length_map; lia).
    rewrite nth_error_map, Hk. reflexivity.
  - intros k Hk. unfold raw.get. cbn [raw.N raw.rows].
    replace ((0 <=? k) && (k <? simplecount F + 1)) with true
      by (symmetry; apply andb_true_iff; split;
          [apply Z.leb_le | apply Z.ltb_lt]; pose proof (len_nonneg occs); lia).
    rewrite Erows, nth_error_app2
      by (rewrite length_map; cbn [length]; rewrite length_map; unfold len in Hk; lia).
    rewrite length_map. cbn [length]. rewrite length_map.
    rewrite nth_error_skipn, nth_error_repeat; [reflexivity|].
    unfold len in Hk. lia.
Qed.

Lemma simplecount_newlines (F : bytes) :
  simplecount F = len (occurrences [LF] F 0) + (if ends_open F then 1 else 0).
Proof.
  rewrite simplecount_lines. unfold readlines, len.
  rewrite (lines_count F [] 0) by (intros []). cbn [rev app].
  destruct (ends_open F); lia.
Qed.

Lemma ends_open_write_lines (ls : list bytes) (t : bytes) :
  t <> [] -> no_LF t -> ends_open (write_lines ls t) = true.
Proof.
  intros Hne Ht. induction ls as [|l ls IH]; cbn [write_lines].
  - unfold ends_open. destruct (rev t) as [|c r] eqn:E.
    + apply (f_equal (@rev byte)) in E. rewrite rev_involutive in E. contradiction.
    + rewrite byte_eqb_LF_false; [reflexivity|].
      intros ->. apply Ht. apply in_rev. rewrite E. left. reflexivity.
  - rewrite ends_open_after_LF. exact IH.
Qed.

Lemma read_record_at (st : raw.RawStore) (F : bytes) (sp : option bytes)
    (idx a b : Z) (buf : bytes) :
  raw.get st idx = Ok [a] ->
  raw.get st (idx + 1) = Ok [b] ->
  fst (read F a (b - a - 1)) = buf ->
  read_record st F sp idx = Ok (as_row sp buf).
Proof.
  intros Ha Hb Hbuf. unfold read_record. rewrite Ha. cbn [bind first_column].
  rewrite Hb. cbn [bind first_column].
  destruct (read F a (b - a - 1)) as [buf' tell]. cbn [fst] in Hbuf. subst buf'.
  unfold as_row. destruct sp as [[|c sp]|]; reflexivity.
Qed.

(** Index a file written line by line, then read it back by row: every
    line comes back without its newline, and so does a last line that has
    no newline (its end offset was never written, and the negative length
    makes [read] go to the end of the file). *)
Lemma smiles_store_reads_lines (narrow : raw.dtype -> Z -> option Z)
    (ls : list bytes) (t : bytes) :
  Forall no_LF ls -> no_LF t ->
  len (write_lines ls t)
  < 2 ^ (8 * raw.width (offset_dtype (simplecount (write_lines ls t)))) ->
  exists st : raw.RawStore,
    smiles_store narrow (write_lines ls t) = Ok st /\
    (forall (p : nat) (line : bytes) (sp : option bytes),
        nth_error ls p = Some line ->
        read_record st (write_lines ls t) sp (Z.of_nat p) = Ok (as_row sp line)) /\
    (t <> [] ->
     forall sp : option bytes,
       read_record st (write_lines ls t) sp (len ls) = Ok (as_row sp t)).
Proof.
  intros Hls Ht Hsize.
  destruct (smiles_store_rows narrow _ Hsize) as (st & Hst & HN & Hoff & Hzero).
  rewrite (occurrences_write_lines ls t 0 Hls Ht) in Hoff, Hzero.
  exists st. split; [exact Hst|]. split.
  - intros p line sp Hp.
    destruct (record_span ls t 0 p line Hp) as (a & H1 & H2 & Ha & Hline).
    apply (read_record_at st _ sp _ a (a + len line + 1)).
    + apply Hoff. exact H1.
    + replace (Z.of_nat p + 1) with (Z.of_nat (S p)) by lia. apply Hoff. exact H2.
    + unfold read. cbn [fst].
      replace (a + len line + 1 - a - 1 <? 0) with false
        by (symmetry; apply Z.ltb_ge; pose proof (len_nonneg line); lia).
      replace (a + len line + 1 - a - 1) with (len line) by lia.
      unfold len. rewrite Nat2Z.id.
      replace (a - 0) with a in Hline by lia. exact Hline.
  - intros Hne sp.
    destruct (tail_span ls t 0) as (a & H1 & Ha & Htail).
    apply (read_record_at st _ sp _ a 0).
    + unfold len. apply Hoff. exact H1.
    + apply Hzero. rewrite simplecount_newlines.
      rewrite (occurrences_write_lines ls t 0 Hls Ht).
      rewrite (ends_open_write_lines ls t Hne Ht).
      unfold len. rewrite line_ends_length. lia.
    + unfold read. cbn [fst].
      replace (0 - a - 1 <? 0) with true by (symmetry; apply Z.ltb_lt; lia).
      replace (a - 0) with a in Htail by lia. exact Htail.
Qed.

Lemma MakeSmilesIndex_store (narrow : raw.dtype -> Z -> option Z) (F : bytes)
    (h : bool) (sc nc : column) (sp : option bytes) (self : MolFileIndex) :
  MakeSmilesIndex narrow F h sc nc sp = Ok self ->
  exists st : raw.RawStore,
    smiles_store narrow F = Ok st /\ __init__ F st sc nc h sp None = Ok self.
Proof.
  unfold MakeSmilesIndex. intros H.
  destruct (smiles_store narrow F) as [st| |]; cbn [bind] in H; try discriminate H.
  exists st. split; [reflexivity | exact H].
Qed.

(** X2: a file of plain text, made of newline-terminated lines (and maybe
    a last open line), indexed by [MakeSmilesIndex] without a header, whose
    size fits the offset column: [get(p)] returns line [p] without its newline, split on
    the separator when one is set; [getMol(p)] and [getName(p)] return the
    configured column of that row. *)
Theorem get_returns_line (narrow : raw.dtype -> Z -> option Z)
    (ls : list bytes) (t : bytes) (sc nc : column) (sp : option bytes)
    (self : MolFileIndex) (p : nat) (line : bytes) :
  plain_text (write_lines ls t) ->
  Forall no_LF ls -> no_LF t ->
  len (write_lines ls t)
  < 2 ^ (8 * raw.width (offset_dtype (simplecount (write_lines ls t)))) ->
  MakeSmilesIndex narrow (write_lines ls t) false sc nc sp = Ok self ->
  nth_error ls p = Some line ->
  get self (Z.of_nat p) = Ok (as_row sp line) /\
  (forall c, smilesColIdx self = Some c -> c <> -1 ->
             getMol self (Z.of_nat p) = getitem (as_row sp line) c) /\
  (forall n, nameidx self = Some n -> n <> -1 ->
             getName self (Z.of_nat p) = getitem (as_row sp line) n).
Proof.
  intros _ Hls Ht Hsize Hmk Hp.
  destruct (MakeSmilesIndex_store _ _ _ _ _ _ _ Hmk) as (st & Hst & Hinit).
  destruct (smiles_store_reads_lines narrow ls t Hls Ht Hsize) as (st' & Hst' & Hread & _).
  rewrite Hst in Hst'. injection Hst' as <-.
  apply init_attributes in Hinit. destruct Hinit as (Hdb & HF & Hh & Hsep & _).
  assert (E : _get self (Some (Z.of_nat p)) = Ok (as_row sp line)).
  { unfold _get, _get_on, resolve_row. rewrite Hdb, HF, Hh, Hsep. apply Hread. exact Hp. }
  split; [|split].
  - unfold get. rewrite Hh. exact E.
  - intros c Hc Hne. unfold getMol. rewrite Hc. cbn [getattr bind].
    replace (c =? -1) with false by (symmetry; apply Z.eqb_neq; exact Hne).
    cbn [negb]. rewrite E. reflexivity.
  - intros n Hn Hne. unfold getName. rewrite Hn. cbn [getattr bind].
    replace (n =? -1) with false by (symmetry; apply Z.eqb_neq; exact Hne).
    rewrite E. reflexivity.
Qed.

Ltac no_LF_tac :=
  repeat (apply Forall_cons || apply Forall_nil);
  unfold no_LF; intros H; cbn in H;
  repeat (destruct H as [H|H]; [discriminate H|]); exact H.

Lemma get_returns_line_witness :
  exists self : MolFileIndex,
    MakeSmilesIndex refuse smiles_file false (ColInt 0) (ColInt 1) (Some (B ",")) = Ok self /\
    get self 1 = Ok (StrList [B "bb"; B "2"]) /\
    getMol self 1 = Ok (Str (B "bb")) /\
    getName self 1 = Ok (Str (B "2")).
Proof.
  eexists. split; [vm_compute; reflexivity|].
  match goal with
  | |- get ?s _ = _ /\ _ =>
      destruct (get_returns_line refuse [B "a,1"; B "bb,2"; B "cc,3"] []
                  (ColInt 0) (ColInt 1) (Some (B ",")) s 1%nat (B "bb,2"))
        as (E1 & E2 & E3)
  end.
  - reflexivity.
  - no_LF_tac.
  - no_LF_tac.
  - vm_compute. reflexivity.
  - vm_compute. reflexivity.
  - reflexivity.
  - split; [exact E1|]. split.
    + exact (E2 0 eq_refl ltac:(discriminate)).
    + exact (E3 1 eq_refl ltac:(discriminate)).
Defined.

(** X3: the last line of a file of plain text may lack its newline;
    indexed without a header it is still read whole, as the row after the terminated lines:
    its end offset is an unwritten zero, the length handed to [read] is
    negative, and [read] goes to the end of the file. *)
Theorem get_returns_open_last_line (narrow : raw.dtype -> Z -> option Z)
    (ls : list bytes) (t : bytes) (sc nc : column) (sp : option bytes)
    (self : MolFileIndex) :
  plain_text (write_lines ls t) ->
  Forall no_LF ls -> no_LF t -> t <> [] ->
  len (write_lines ls t)
  < 2 ^ (8 * raw.width (offset_dtype (simplecount (write_lines ls t)))) ->
  MakeSmilesIndex narrow (write_lines ls t) false sc nc sp = Ok self ->
  get self (len ls) = Ok (as_row sp t).
Proof.
  intros _ Hls Ht Hne Hsize Hmk.
  destruct (MakeSmilesIndex_store _ _ _ _ _ _ _ Hmk) as (st & Hst & Hinit).
  destruct (smiles_store_reads_lines narrow ls t Hls Ht Hsize) as (st' & Hst' & _ & Hread).
  rewrite Hst in Hst'. injection Hst' as <-.
  apply init_attributes in Hinit. destruct Hinit as (Hdb & HF & Hh & Hsep & _).
  unfold get, _get, _get_on, resolve_row. rewrite Hdb, HF, Hh, Hsep.
  apply Hread. exact Hne.
Qed.

Lemma get_returns_open_last_line_witness :
  exists self : MolFileIndex,
    MakeSmilesIndex refuse (B "a" ++ [LF] ++ B "bc") false (ColInt 0) (ColInt (-1)) None
    = Ok self /\
    get self 1 = Ok (Str (B "bc")).
Proof.
  eexists. split; [vm_compute; reflexivity|].
  match goal with
  | |- get ?s _ = _ =>
      apply (get_returns_open_last_line refuse [B "a"] (B "bc")
               (ColInt 0) (ColInt (-1)) None s)
  end.
  - reflexivity.
  - no_LF_tac.
  - no_LF_tac.
  - discriminate.
  - vm_compute. reflexivity.
  - vm_compute. reflexivity.
Defined.

(** ** What [__init__] checks *)

Lemma init_columns (F : bytes) (store : raw.RawStore) (sc nc : column)
    (h : bool) (sp : option bytes) (nf : option (bytes -> bytes))
    (self : MolFileIndex) :
  __init__ F store sc nc h sp nf = Ok self ->
  exists row : pyval,
    _get_on store F h sp (Some (if h then 1 else 0)) = Ok row /\
    (h = true -> _get_on store F h sp None = Ok (colnames self)) /\
    (h = false ->
     colnames self = StrList (map column_name (seq 0 (Z.to_nat (pylen row))))) /\
    (forall c, smilesColIdx self = Some c -> c < pylen row) /\
    (forall n, nameidx self = Some n -> n < pylen row) /\
    (forall c, sc = ColInt c -> c <> -1 -> smilesColIdx self = Some c) /\
    (forall n, nc = ColInt n -> n <> -1 -> nameidx self = Some n).
Proof.
  unfold __init__. intros H. bind_inv H. injection H as <-. cbn.
  rename a into names, a0 into row, a1 into sidx, a2 into nidx.
  exists row. split; [destruct h; exact E0|].
  split; [intros ->; exact E|].
  split.
  { intros ->. rewrite E0 in E. cbn [bind] in E. injection E as <-. reflexivity. }
  assert (Hs : forall c, sidx = Some c ->
                c < pylen row /\ (forall c', sc = ColInt c' -> c = c')).
  { intros c ->. destruct (is_not_minus_one sc); [|discriminate E1].
    destruct (resolve_column names sc) as [i| |] eqn:Er; cbn [bind] in E1;
      try discriminate E1.
    destruct (pylen row <=? i) eqn:Ei; [discriminate E1|].
    injection E1 as ->. apply Z.leb_gt in Ei. split; [exact Ei|].
    intros c' ->. cbn in Er. congruence. }
  assert (Hn : forall n, nidx = Some n ->
                n < pylen row /\ (forall n', nc = ColInt n' -> n = n')).
  { intros n ->. destruct (is_not_minus_one nc); [|discriminate E2].
    destruct (resolve_column names nc) as [i| |] eqn:Er; cbn [bind] in E2;
      try discriminate E2.
    destruct (pylen row <=? i) eqn:Ei.
    - destruct (getattr "smilesColIdx" sidx); discriminate E2.
    - injection E2 as ->. apply Z.leb_gt in Ei. split; [exact Ei|].
      intros n' ->. cbn in Er. congruence. }
  split; [intros c Hc; apply (Hs c Hc)|].
  split; [intros n Hn'; apply (Hn n Hn')|].
  split.
  - intros c -> Hne. cbn [is_not_minus_one] in E1.
    replace (c =? -1) with false in E1 by (symmetry; apply Z.eqb_neq; exact Hne).
    cbn [negb resolve_column bind] in E1.
    destruct (pylen row <=? c); [discriminate E1|]. congruence.
  - intros n -> Hne. cbn [is_not_minus_one] in E2.
    replace (n =? -1) with false in E2 by (symmetry; apply Z.eqb_neq; exact Hne).
    cbn [negb resolve_column bind] in E2.
    destruct (pylen row <=? n).
    + destruct (getattr "smilesColIdx" sidx); discriminate E2.
    + congruence.
Qed.

(** X4: a constructor that returns has checked both columns against the
    first data row: the smiles and name indices it keeps are below that
    row's length (its field count, or its byte count without a separator),
    and an integer column other than [-1] is kept as given. *)
Theorem init_validates_columns (F : bytes) (store : raw.RawStore) (sc nc : column)
    (h : bool) (sp : option bytes) (nf : option (bytes -> bytes))
    (self : MolFileIndex) :
  __init__ F store sc nc h sp nf = Ok self ->
  exists row : pyval,
    _get_on store F h sp (Some (if h then 1 else 0)) = Ok row /\
    (forall c, smilesColIdx self = Some c -> c < pylen row) /\
    (forall n, nameidx self = Some n -> n < pylen row) /\
    (forall c, sc = ColInt c -> c <> -1 -> smilesColIdx self = Some c) /\
    (forall n, nc = ColInt n -> n <> -1 -> nameidx self = Some n).
Proof.
  intros H. destruct (init_columns _ _ _ _ _ _ _ _ H) as (row & Hr & _ & _ & Hs & Hn & Hsc & Hnc).
  exists row. repeat split; assumption.
Qed.

Lemma init_validates_columns_witness :
  exists (self : MolFileIndex) (row : pyval),
    __init__ smiles_file smiles_file_index (ColInt 0) (ColInt 1) false (Some (B ",")) None
    = Ok self /\
    _get_on smiles_file_index smiles_file false (Some (B ",")) (Some 0) = Ok row /\
    pylen row = 2 /\
    smilesColIdx self = Some 0 /\ nameidx self = Some 1.
Proof.
  eexists.
  match goal with
  | |- exists row, ?i = Ok ?s /\ _ =>
      assert (E : i = Ok s) by (vm_compute; reflexivity)
  end.
  destruct (init_validates_columns _ _ _ _ _ _ _ _ E) as (row & Hr & _ & _ & Hs & Hn).
  exists row. split; [exact E|]. split; [exact Hr|].
  split; [|split; [apply (Hs 0 eq_refl); discriminate | apply (Hn 1 eq_refl); discriminate]].
  vm_compute in Hr. injection Hr as <-. reflexivity.
Defined.

(** X5: what the constructor does with an integer column that is not below
    the length of the first data row.  For the smiles column it raises
    [IndexError].  For the name column it means to do the same, but the
    message it formats reads [self.smilesColIdx]: when the smiles column
    is [-1] that attribute does not exist and [AttributeError] comes out
    instead. *)
Theorem init_rejects_large_column (F : bytes) (store : raw.RawStore)
    (sc nc : column) (h : bool) (sp : option bytes)
    (nf : option (bytes -> bytes)) (row : pyval) :
  _get_on store F h sp (Some (if h then 1 else 0)) = Ok row ->
  (h = true -> exists names, _get_on store F h sp None = Ok names) ->
  (forall c, sc = ColInt c -> c <> -1 -> pylen row <= c ->
     __init__ F store sc nc h sp nf
     = Raise (IndexError "Smiles Column greater than rowsize")) /\
  (forall n, sc = ColInt (-1) -> nc = ColInt n -> n <> -1 -> pylen row <= n ->
     __init__ F store sc nc h sp nf = Raise (AttributeError "smilesColIdx")) /\
  (forall c n, sc = ColInt c -> c <> -1 -> c < pylen row ->
     nc = ColInt n -> n <> -1 -> pylen row <= n ->
     __init__ F store sc nc h sp nf
     = Raise (IndexError "Name Column greater than rowsize")).
Proof.
  intros Hrow Hnames.
  assert (Hstages : exists names,
             (if h then _get_on store F h sp None
              else r <- _get_on store F h sp (Some 0) ;;
                   Ok (StrList (map column_name (seq 0 (Z.to_nat (pylen r))))))
             = Ok names /\
             (if h then _get_on store F h sp (Some 1)
              else _get_on store F h sp (Some 0)) = Ok row).
  { destruct h.
    - destruct (Hnames eq_refl) as (names & Hn). exists names. split; assumption.
    - eexists. rewrite Hrow. cbn [bind]. split; reflexivity. }
  destruct Hstages as (names & En & Er).
  split; [|split].
  - intros c -> Hne Hle. unfold __init__. rewrite En, Er. cbn [bind is_not_minus_one].
    replace (c =? -1) with false by (symmetry; apply Z.eqb_neq; exact Hne).
    cbn [negb resolve_column bind].
    replace (pylen row <=? c) with true by (symmetry; apply Z.leb_le; exact Hle).
    reflexivity.
  - intros n -> -> Hne Hle. unfold __init__. rewrite En, Er. cbn [bind is_not_minus_one].
    replace (n =? -1) with false by (symmetry; apply Z.eqb_neq; exact Hne).
    cbn.
    replace (pylen row <=? n) with true by (symmetry; apply Z.leb_le; exact Hle).
    reflexivity.
  - intros c n -> Hc Hlt -> Hne Hle. unfold __init__. rewrite En, Er.
    cbn [bind is_not_minus_one].
    replace (c =? -1) with false by (symmetry; apply Z.eqb_neq; exact Hc).
    replace (n =? -1) with false by (symmetry; apply Z.eqb_neq; exact Hne).
    cbn [negb resolve_column bind].
    replace (pylen row <=? c) with false by (symmetry; apply Z.leb_gt; exact Hlt).
    cbn [bind].
    replace (pylen row <=? n) with true by (symmetry; apply Z.leb_le; exact Hle).
    reflexivity.
Qed.

Lemma init_rejects_large_column_witness :
  __init__ smiles_file smiles_file_index (ColInt 2) (ColInt (-1)) false (Some (B ",")) None
  = Raise (IndexError "Smiles Column greater than rowsize") /\
  __init__ smiles_file smiles_file_index (ColInt (-1)) (ColInt 2) false (Some (B ",")) None
  = Raise (AttributeError "smilesColIdx") /\
  __init__ smiles_file smiles_file_index (ColInt 0) (ColInt 2) false (Some (B ",")) None
  = Raise (IndexError "Name Column greater than rowsize").
Proof.
  assert (Hrow : _get_on smiles_file_index smiles_file false (Some (B ",")) (Some 0)
                 = Ok (StrList [B "a"; B "1"])) by (vm_compute; reflexivity).
  assert (Hh : false = true ->
               exists names,
                 _get_on smiles_file_index smiles_file false (Some (B ",")) None = Ok names)
    by discriminate.
  split; [|split].
  - destruct (init_rejects_large_column smiles_file smiles_file_index
                (ColInt 2) (ColInt (-1)) false (Some (B ",")) None _ Hrow Hh) as (H1 & _ & _).
    apply (H1 2 eq_refl); [discriminate | vm_compute; discriminate].
  - destruct (init_rejects_large_column smiles_file smiles_file_index
                (ColInt (-1)) (ColInt 2) false (Some (B ",")) None _ Hrow Hh) as (_ & H2 & _).
    apply (H2 2 eq_refl eq_refl); [discriminate | vm_compute; discriminate].
  - destruct (init_rejects_large_column smiles_file smiles_file_index
                (ColInt 0) (ColInt 2) false (Some (B ",")) None _ Hrow Hh) as (_ & _ & H3).
    apply (H3 0 2 eq_refl); [discriminate | reflexivity | reflexivity | discriminate
                             | vm_compute; discriminate].
Defined.

Lemma smiles_store_shape (narrow : raw.dtype -> Z -> option Z) (F : bytes)
    (st : raw.RawStore) :
  smiles_store narrow F = Ok st ->
  raw.columns st = [("index"%string, offset_dtype (simplecount F))] /\
  raw.N st = simplecount F + 1.
Proof.
  rewrite smiles_store_after_first. intros H.
  destruct (run_index F [LF]) as [offsets| |]; cbn [bind] in H; try discriminate H.
  revert H.
  apply (for_enumerate_keeps Z raw.RawStore
           (fun s => raw.columns s = [("index"%string, offset_dtype (simplecount F))]
                     /\ raw.N s = simplecount F + 1)).
  - intros s i x s' [Hc HN] Hb. apply putRow_shape in Hb.
    destruct Hb as [-> ->]. split; assumption.
  - split; reflexivity.
Qed.

(** The constructor reads a data row and the offset after it: physical
    rows 0 and 1 without a header, and with a header rows 2 and 3, as
    [_get(1)] adds one to the row it is given. *)
Lemma init_needs_rows (F : bytes) (store : raw.RawStore) (sc nc : column)
    (h : bool) (sp : option bytes) (nf : option (bytes -> bytes))
    (self : MolFileIndex) :
  __init__ F store sc nc h sp nf = Ok self ->
  (if h then 3 else 1) < raw.N store.
Proof.
  intros H. destruct (init_columns _ _ _ _ _ _ _ _ H) as (row & Hrow & _).
  unfold _get_on, read_record in Hrow.
  destruct (raw.get store (resolve_row h (Some (if h then 1 else 0)))) as [r0| |];
    cbn [bind] in Hrow; try discriminate Hrow.
  destruct (first_column r0) as [a| |]; cbn [bind] in Hrow; try discriminate Hrow.
  destruct (raw.get store (resolve_row h (Some (if h then 1 else 0)) + 1))
    as [r1| |] eqn:E1; cbn [bind] in Hrow; try discriminate Hrow.
  unfold raw.get in E1.
  destruct ((0 <=? resolve_row h (Some (if h then 1 else 0)) + 1)
            && (resolve_row h (Some (if h then 1 else 0)) + 1 <? raw.N store)) eqn:Er;
    [|discriminate E1].
  apply andb_true_iff in Er. destruct Er as [_ Er]. apply Z.ltb_lt in Er.
  destruct h; cbn [resolve_row] in Er; lia.
Qed.

(** X6: the same file of plain text indexed with a header.  [header()] and [colnames] are
    the first line; [_get(p)], which [getMol] and [getName] read through,
    is the line after it for [p = 0], and so on: data row [p] is line
    [p + 1] of the file. *)
Theorem header_index_reads_lines (narrow : raw.dtype -> Z -> option Z)
    (ls : list bytes) (t : bytes) (sc nc : column) (sp : option bytes)
    (self : MolFileIndex) :
  plain_text (write_lines ls t) ->
  Forall no_LF ls -> no_LF t ->
  len (write_lines ls t)
  < 2 ^ (8 * raw.width (offset_dtype (simplecount (write_lines ls t)))) ->
  MakeSmilesIndex narrow (write_lines ls t) true sc nc sp = Ok self ->
  (exists first : bytes,
      nth_error ls 0 = Some first /\
      header self = Ok (as_row sp first) /\
      colnames self = as_row sp first) /\
  (forall (p : nat) (line : bytes),
      nth_error ls (S p) = Some line ->
      _get self (Some (Z.of_nat p)) = Ok (as_row sp line) /\
      (forall c, smilesColIdx self = Some c -> c <> -1 ->
                 getMol self (Z.of_nat p) = getitem (as_row sp line) c) /\
      (forall n, nameidx self = Some n -> n <> -1 ->
                 getName self (Z.of_nat p) = getitem (as_row sp line) n)).
Proof.
  intros _ Hls Ht Hsize Hmk.
  destruct (MakeSmilesIndex_store _ _ _ _ _ _ _ Hmk) as (st & Hst & Hinit).
  destruct (smiles_store_reads_lines narrow ls t Hls Ht Hsize) as (st' & Hst' & Hread & Htail).
  rewrite Hst in Hst'. injection Hst' as <-.
  destruct (init_columns _ _ _ _ _ _ _ _ Hinit) as (row & Hrow & Hnames & _).
  specialize (Hnames eq_refl).
  destruct (init_attributes _ _ _ _ _ _ _ _ Hinit) as (Hdb & HF & Hh & Hsep & _).
  split.
  - destruct ls as [|first ls'].
    + (* no terminated line: the store is too short for the constructor *)
      exfalso. pose proof (init_needs_rows _ _ _ _ _ _ _ _ Hinit) as Hrows.
      apply smiles_store_shape in Hst. destruct Hst as [_ HN].
      rewrite HN, simplecount_newlines in Hrows.
      rewrite (occurrences_write_lines [] t 0 Hls Ht) in Hrows.
      unfold len in Hrows. cbn in Hrows. destruct (ends_open t); lia.
    + exists first. split; [reflexivity|].
      assert (E : read_record st (write_lines (first :: ls') t) sp 0
                  = Ok (as_row sp first)) by (apply (Hread 0%nat); reflexivity).
      split.
      * unfold header, _get, _get_on, resolve_row. rewrite Hh, Hdb, HF, Hsep. exact E.
      * unfold _get_on, resolve_row in Hnames. rewrite E in Hnames. congruence.
  - intros p line Hp.
    assert (E : _get self (Some (Z.of_nat p)) = Ok (as_row sp line)).
    { unfold _get, _get_on, resolve_row. rewrite Hdb, HF, Hh, Hsep.
      replace (Z.of_nat p + 1) with (Z.of_nat (S p)) by lia. apply Hread. exact Hp. }
    split; [exact E|]. split.
    + intros c Hc Hne. unfold getMol. rewrite Hc. cbn [getattr bind].
      replace (c =? -1) with false by (symmetry; apply Z.eqb_neq; exact Hne).
      cbn [negb]. rewrite E. reflexivity.
    + intros n Hn Hne. unfold getName. rewrite Hn. cbn [getattr bind].
      replace (n =? -1) with false by (symmetry; apply Z.eqb_neq; exact Hne).
      rewrite E. reflexivity.
Qed.

Lemma header_index_reads_lines_witness :
  exists self : MolFileIndex,
    MakeSmilesIndex refuse header_file true (ColInt 0) (ColInt (-1)) None = Ok self /\
    header self = Ok (Str (B "h")) /\
    getMol self 0 = Ok (Str (B "a")).
Proof.
  eexists. split; [vm_compute; reflexivity|].
  match goal with
  | |- header ?s = _ /\ _ =>
      destruct (header_index_reads_lines refuse [B "h"; B "a"; B "b"; B "c"] []
                  (ColInt 0) (ColInt (-1)) None s) as ((first & Hf & Hh & _) & Hrows)
  end.
  - reflexivity.
  - no_LF_tac.
  - no_LF_tac.
  - vm_compute. reflexivity.
  - vm_compute. reflexivity.
  - injection Hf as <-. split; [exact Hh|].
    destruct (Hrows 0%nat (B "a") eq_refl) as (_ & Hmol & _).
    exact (Hmol 0 eq_refl ltac:(discriminate)).
Defined.

(** ** The size of the store and the record count *)

(** C8, as the code has it: for a source file of plain text, both
    builders take the element type of the offset column from the number
    of lines [N] that [simplecount] counts in the file, the newlines plus
    one for a last line without a newline (for an SDF file these are text
    lines, not records): [uint8] below [2**8], [uint16] below [2**16],
    [uint32] below [2**32], else [uint64], which is the smallest width
    covering that line count.  The store is created once with it, and row
    0 written, before the loop over the offsets: in [MakeSDFIndex] too,
    whose loop then fails on a file that holds a record. *)
Theorem offset_column_dtype (narrow : raw.dtype -> Z -> option Z) (F : bytes) :
  plain_text F ->
  let n := simplecount F in
  let d := offset_dtype n in
  n = len (occurrences [LF] F 0) + (if ends_open F then 1 else 0) /\
  (n < 2 ^ 8 -> d = raw.uint8) /\
  (2 ^ 8 <= n < 2 ^ 16 -> d = raw.uint16) /\
  (2 ^ 16 <= n < 2 ^ 32 -> d = raw.uint32) /\
  (2 ^ 32 <= n -> d = raw.uint64) /\
  (n < 2 ^ 64 -> d = width_for n) /\
  (exists (first : raw.RawStore) (indices : list Z),
      raw.putRow narrow (raw.MakeStore [("index"%string, d)] (n + 1)) 0 [0] = Ok first /\
      raw.columns first = [("index"%string, d)] /\
      smiles_store narrow F
      = (offsets <- run_index F [LF] ;;
         for_enumerate (fun st i pos => raw.putRow narrow st (i + 1) [pos + 1])
                       0 offsets first) /\
      run_index F sdf_terminator = Ok indices /\
      sdf_store narrow F
      = for_enumerate (fun st i (idx : Z) =>
                         pos <- (Raise (NameError "pos") : outcome Z) ;;
                         raw.putRow narrow st (i + 1) [pos + 1])
                      0 indices first) /\
  (forall st, smiles_store narrow F = Ok st \/ sdf_store narrow F = Ok st ->
              raw.columns st = [("index"%string, d)]).
Proof.
  intros _ n d. pose proof (simplecount_nonneg F) as Hn. fold n in Hn.
  split; [apply simplecount_newlines|].
  assert (Hlt : forall a, n < a -> (n <? a) = true) by (intros a Ha; apply Z.ltb_lt; exact Ha).
  assert (Hge : forall a, a <= n -> (n <? a) = false) by (intros a Ha; apply Z.ltb_ge; exact Ha).
  split; [intros H; unfold d, offset_dtype; rewrite (Hlt _ H); reflexivity|].
  split; [intros [H1 H2]; unfold d, offset_dtype;
          rewrite (Hge _ H1), (Hlt _ H2); reflexivity|].
  split; [intros [H1 H2]; unfold d, offset_dtype;
          rewrite (Hge (2 ^ 8)), (Hge _ H1), (Hlt _ H2) by lia; reflexivity|].
  split; [intros H; unfold d, offset_dtype;
          rewrite (Hge (2 ^ 8)), (Hge (2 ^ 16)), (Hge _ H) by lia; reflexivity|].
  split; [intros H; apply offset_dtype_smallest; lia|].
  assert (Hidx : run_index F sdf_terminator = Ok (occurrences sdf_terminator F 0)).
  { unfold run_index, index, index_fuel.
    rewrite index_loop_from_start; [reflexivity | discriminate
                                    | left; vm_compute; discriminate | lia]. }
  split.
  - eexists. exists (occurrences sdf_terminator F 0).
    split; [apply putRow_first; lia|].
    split; [reflexivity|].
    split; [apply smiles_store_after_first|].
    split; [exact Hidx|].
    rewrite sdf_store_after_first, Hidx. reflexivity.
  - intros st [H|H].
    + apply smiles_store_shape in H. apply H.
    + rewrite sdf_store_after_first, Hidx in H. cbn [bind] in H. revert H.
      apply (for_enumerate_keeps Z raw.RawStore
               (fun s => raw.columns s = [("index"%string, offset_dtype (simplecount F))])).
      * intros s i x s' _ Hb. cbn [bind] in Hb. discriminate Hb.
      * reflexivity.
Qed.

Lemma offset_column_dtype_witness :
  simplecount sdf_file = 2 /\
  offset_dtype (simplecount sdf_file) = raw.uint8 /\
  exists first : raw.RawStore,
    raw.columns first = [("index"%string, raw.uint8)] /\
    sdf_store refuse sdf_file
    = for_enumerate (fun st i (idx : Z) =>
                       pos <- (Raise (NameError "pos") : outcome Z) ;;
                       raw.putRow refuse st (i + 1) [pos + 1])
                    0 [2] first.
Proof.
  assert (Hplain : plain_text sdf_file) by reflexivity.
  pose proof (offset_column_dtype refuse sdf_file Hplain) as H. cbv zeta in H.
  destruct H as (_ & H8 & _ & _ & _ & _ & (first & indices & _ & Hc & _ & Hi & Hs) & _).
  assert (Hn : simplecount sdf_file = 2) by (vm_compute; reflexivity).
  split; [exact Hn|].
  assert (Hd : offset_dtype (simplecount sdf_file) = raw.uint8)
    by (apply H8; rewrite Hn; reflexivity).
  split; [exact Hd|].
  exists first. rewrite Hd in Hc. split; [exact Hc|].
  assert (Ei : indices = [2]).
  { assert (E : run_index sdf_file sdf_terminator = Ok [2]) by (vm_compute; reflexivity).
    rewrite E in Hi. injection Hi as <-. reflexivity. }
  rewrite Ei in Hs. exact Hs.
Defined.

(** X7: the record count [N] of an index [MakeSmilesIndex] returns is the
    line count of the file less one, and less two with a header; the store
    behind it has one row more than the file has lines. *)
Theorem record_count_of_index (narrow : raw.dtype -> Z -> option Z) (F : bytes)
    (h : bool) (sc nc : column) (sp : option bytes) (self : MolFileIndex) :
  MakeSmilesIndex narrow F h sc nc sp = Ok self ->
  raw.N (db self) = simplecount F + 1 /\
  N self = simplecount F - (if h then 2 else 1).
Proof.
  intros Hmk.
  destruct (MakeSmilesIndex_store _ _ _ _ _ _ _ Hmk) as (st & Hst & Hinit).
  apply smiles_store_shape in Hst. destruct Hst as [_ HN].
  apply init_attributes in Hinit. destruct Hinit as (Hdb & _ & _ & _ & HNs & _).
  rewrite Hdb, HNs, HN. split; [reflexivity|]. destruct h; lia.
Qed.

Lemma record_count_of_index_witness :
  exists self : MolFileIndex,
    MakeSmilesIndex refuse header_file true (ColInt 0) (ColInt (-1)) None = Ok self /\
    simplecount header_file = 4 /\
    raw.N (db self) = 5 /\ N self = 2.
Proof.
  eexists.
  match goal with
  | |- ?m = Ok ?s /\ _ => assert (E : m = Ok s) by (vm_compute; reflexivity)
  end.
  split; [exact E|].
  assert (Hc : simplecount header_file = 4) by (vm_compute; reflexivity).
  split; [exact Hc|].
  destruct (record_count_of_index _ _ _ _ _ _ _ E) as [H1 H2].
  rewrite Hc in H1, H2. split; [exact H1 | exact H2].
Defined.

(** X8: [MakeSmilesIndex] returns an index only for a file of at least one
    line, and with a header of at least three lines: the constructor reads
    its sample row with [_get(1)], two rows past the header line, and the
    offset after it.  An empty file, or a header with a single record
    below it, makes it fail. *)
Theorem index_needs_lines (narrow : raw.dtype -> Z -> option Z) (F : bytes)
    (h : bool) (sc nc : column) (sp : option bytes) (self : MolFileIndex) :
  MakeSmilesIndex narrow F h sc nc sp = Ok self ->
  (if h then 3 else 1) <= simplecount F.
Proof.
  intros Hmk.
  destruct (MakeSmilesIndex_store _ _ _ _ _ _ _ Hmk) as (st & Hst & Hinit).
  apply smiles_store_shape in Hst. destruct Hst as [_ HN].
  apply init_needs_rows in Hinit. rewrite HN in Hinit. destruct h; lia.
Qed.

Lemma index_needs_lines_witness :
  3 <= simplecount header_file /\
  MakeSmilesIndex refuse (B "h" ++ [LF] ++ B "a" ++ [LF]) true (ColInt 0) (ColInt (-1)) None
  = Raise IndexOutOfRange.
Proof.
  split; [|vm_compute; reflexivity].
  assert (E : exists self,
             MakeSmilesIndex refuse header_file true (ColInt 0) (ColInt (-1)) None = Ok self)
    by (eexists; vm_compute; reflexivity).
  destruct E as (self & E).
  exact (index_needs_lines refuse header_file true (ColInt 0) (ColInt (-1)) None self E).
Defined.

(** ** The writes of [MakeSmilesIndex] *)

Lemma offsets_loop_in_range (narrow : raw.dtype -> Z -> option Z)
    (d : raw.dtype) (name : string) :
  forall (xs : list Z) (i : Z) (st : raw.RawStore),
    raw.columns st = [(name, d)] ->
    0 <= i ->
    i + len xs < raw.N st ->
    (exists st',
        for_enumerate (fun s j pos => raw.putRow narrow s (j + 1) [pos + 1]) i xs st
        = Ok st') \/
    (for_enumerate (fun s j pos => raw.putRow narrow s (j + 1) [pos + 1]) i xs st
     = Raise ValueNotStorable /\
     exists p, In p xs /\ raw.fits d (p + 1) = false /\ narrow d (p + 1) = None).
Proof.
  induction xs as [|x xs IH]; intros i st Hc Hi Hn.
  - left. eexists. reflexivity.
  - rewrite len_cons in Hn. pose proof (len_nonneg xs) as Hxs.
    cbn [for_enumerate]. unfold raw.putRow at 1 3. rewrite Hc.
    replace ((0 <=? i + 1) && (i + 1 <? raw.N st)) with true
      by (symmetry; apply andb_true_iff; split; [apply Z.leb_le | apply Z.ltb_lt]; lia).
    cbn [length Nat.eqb raw.cells]. unfold raw.cell.
    destruct (raw.fits d (x + 1)) eqn:Ef.
    + cbn [bind].
      destruct (IH (i + 1)
                  {| raw.columns := [(name, d)]; raw.N := raw.N st;
                     raw.rows := raw.update (raw.rows st) (Z.to_nat (i + 1)) [x + 1] |}
                  eq_refl ltac:(lia) ltac:(cbn [raw.N]; lia))
        as [H|(H & p & Hp & Hfp & Hnp)].
      * left. exact H.
      * right. split; [exact H|]. exists p. split; [right; exact Hp|]. split; assumption.
    + destruct (narrow d (x + 1)) as [v|] eqn:En.
      * cbn [bind].
        destruct (IH (i + 1)
                    {| raw.columns := [(name, d)]; raw.N := raw.N st;
                       raw.rows := raw.update (raw.rows st) (Z.to_nat (i + 1)) [v] |}
                    eq_refl ltac:(lia) ltac:(cbn [raw.N]; lia))
          as [H|(H & p & Hp & Hfp & Hnp)].
        -- left. exact H.
        -- right. split; [exact H|]. exists p. split; [right; exact Hp|]. split; assumption.
      * right. cbn [bind]. split; [reflexivity|].
        exists x. split; [left; reflexivity|]. split; assumption.
Qed.

(** X9: the store [MakeSmilesIndex] creates is large enough for all its
    writes, for every file of plain text: the builder's loop never leaves the store's
    rows and never ends for want of fuel.  It fails only when the store
    refuses an offset that does not fit the element type chosen from the
    line count. *)
Theorem smiles_store_writes_in_range (narrow : raw.dtype -> Z -> option Z)
    (F : bytes) :
  plain_text F ->
  (exists st, smiles_store narrow F = Ok st) \/
  (smiles_store narrow F = Raise ValueNotStorable /\
   exists p, occurs_at F [LF] p /\
             raw.fits (offset_dtype (simplecount F)) (p + 1) = false).
Proof.
  intros _.
  rewrite smiles_store_after_first. unfold run_index. rewrite index_newlines.
  cbn [bind].
  destruct (offsets_loop_in_range narrow (offset_dtype (simplecount F)) "index"
              (occurrences [LF] F 0) 0
              {| raw.columns := [("index"%string, offset_dtype (simplecount F))];
                 raw.N := simplecount F + 1;
                 raw.rows := raw.update (repeat [0] (Z.to_nat (simplecount F + 1))) 0 [0] |}
              eq_refl ltac:(lia)
              ltac:(cbn [raw.N]; pose proof (newlines_le_simplecount F); lia))
    as [H|(H & p & Hp & Hfp & _)].
  - left. exact H.
  - right. split; [exact H|]. exists p. split; [|exact Hfp].
    apply occurrences_occurs_at; [discriminate | exact Hp].
Qed.

Lemma smiles_store_writes_in_range_witness :
  (exists st, smiles_store wrap long_line_file = Ok st) /\
  smiles_store refuse long_line_file = Raise ValueNotStorable.
Proof.
  assert (Hplain : plain_text long_line_file) by reflexivity.
  split.
  - destruct (smiles_store_writes_in_range wrap long_line_file Hplain) as [H|[H _]].
    + exact H.
    + vm_compute in H. discriminate H.
  - destruct (smiles_store_writes_in_range refuse long_line_file Hplain) as [[st H]|[H _]].
    + vm_compute in H. discriminate H.
    + exact H.
Defined.




(** ** The scanner on a word longer than its block *)

(** X11: with the source's block size of [2**16], a word of [2**16 + 1]
    bytes and a file of more than [2**16] bytes, [index] never ends: before
    every read it seeks back [len(word) - 1 = 2**16] bytes, to the start of
    the file, and reads the first block again. *)
Theorem index_never_ends_on_long_word (F T : bytes) :
  len T = bsize + 1 -> bsize < len F ->
  forall fuel : nat, index_loop fuel bsize F T 0 = None.
Proof.
  intros HT HF fuel.
  apply (index_loop_stuck F T bsize HT); [|left; reflexivity].
  split; [reflexivity | exact HF].
Qed.

Lemma index_never_ends_on_long_word_witness :
  let T := repeat x78 (Z.to_nat (bsize + 1)) in
  index_loop 4 bsize T T 0 = None.
Proof.
  intros T.
  assert (HT : len T = bsize + 1).
  { unfold T, len. rewrite repeat_length. apply Z2Nat.id. unfold bsize. lia. }
  apply (index_never_ends_on_long_word T T HT). rewrite HT. lia.
Defined.

(** ** [SDFNameGetter] *)

Lemma split_newline_line (name rest cur : bytes) :
  no_LF name ->
  split_from [LF] 0 cur (name ++ LF :: rest)
  = (rev cur ++ name) :: split_from [LF] 0 [] rest.
Proof.
  revert cur. induction name as [|c name IH]; intros cur Hn.
  - cbn [app split_from starts_with]. replace (Byte.eqb LF LF) with true by reflexivity.
    cbn [andb length Nat.sub]. rewrite app_nil_r. reflexivity.
  - cbn [app split_from starts_with]. rewrite andb_true_r.
    assert (E : Byte.eqb LF c = false).
    { destruct (Byte.eqb LF c) eqn:E; [|reflexivity].
      apply byte_eqb_eq in E. subst c. exfalso. apply Hn. left. reflexivity. }
    rewrite E. rewrite IH by (intros H; apply Hn; right; exact H).
    cbn [rev]. rewrite <- app_assoc. reflexivity.
Qed.

Lemma split_newline_none (name cur : bytes) :
  no_LF name -> split_from [LF] 0 cur name = [rev cur ++ name].
Proof.
  revert cur. induction name as [|c name IH]; intros cur Hn.
  - cbn [split_from]. rewrite app_nil_r. reflexivity.
  - cbn [split_from starts_with]. rewrite andb_true_r.
    assert (E : Byte.eqb LF c = false).
    { destruct (Byte.eqb LF c) eqn:E; [|reflexivity].
      apply byte_eqb_eq in E. subst c. exfalso. apply Hn. left. reflexivity. }
    rewrite E. rewrite IH by (intros H; apply Hn; right; exact H).
    cbn [rev]. rewrite <- app_assoc. reflexivity.
Qed.

Lemma lstrip_head (s : bytes) (c : byte) (r : bytes) :
  lstrip s = c :: r -> is_space c = false.
Proof.
  induction s as [|a s IH]; cbn [lstrip]; [discriminate|].
  destruct (is_space a) eqn:E; [exact IH|].
  intros H. injection H as <- _. exact E.
Qed.

Lemma lstrip_suffix (s : bytes) : exists sp : bytes, s = sp ++ lstrip s.
Proof.
  induction s as [|a s [sp IH]]; cbn [lstrip].
  - exists []. reflexivity.
  - destruct (is_space a).
    + exists (a :: sp). cbn [app]. f_equal. exact IH.
    + exists []. reflexivity.
Qed.

Lemma strip_edges (s : bytes) :
  (forall c r, strip s = c :: r -> is_space c = false) /\
  (forall c r, rev (strip s) = c :: r -> is_space c = false).
Proof.
  unfold strip. split.
  - intros c r H.
    destruct (lstrip_suffix (rev (lstrip s))) as [sp Hsp].
    destruct (lstrip (rev (lstrip s))) as [|d r'] eqn:E; [discriminate H|].
    apply (f_equal (@rev byte)) in Hsp.
    rewrite rev_involutive, rev_app_distr in Hsp. rewrite H in Hsp.
    cbn [app] in Hsp. exact (lstrip_head s c _ Hsp).
  - intros c r H. rewrite rev_involutive in H. exact (lstrip_head _ c r H).
Qed.

Lemma lstrip_In (s : bytes) (c : byte) : In c (lstrip s) -> In c s.
Proof.
  induction s as [|a s IH]; cbn [lstrip]; [intros []|].
  destruct (is_space a); [intros H; right; exact (IH H) | intros H; exact H].
Qed.

Lemma strip_In (s : bytes) (c : byte) : In c (strip s) -> In c s.
Proof.
  unfold strip. intros H.
  apply in_rev in H. apply lstrip_In in H. apply in_rev in H.
  apply lstrip_In in H. exact H.
Qed.

(** X12: [SDFNameGetter] returns the first line of the record it is given,
    a string of ASCII characters, without the white space around it: the
    characters before the first newline (all of them when there is none),
    stripped; the result holds no newline and neither starts nor ends with
    a white-space character (tab to carriage return, [0x1c] to [0x1f],
    space). *)
Theorem SDFNameGetter_first_line (name rest : bytes) :
  ascii_text name -> ascii_text rest ->
  no_LF name ->
  SDFNameGetter (name ++ LF :: rest) = strip name /\
  SDFNameGetter name = strip name /\
  no_LF (strip name) /\
  (forall c r, strip name = c :: r -> is_space c = false) /\
  (forall c r, rev (strip name) = c :: r -> is_space c = false).
Proof.
  intros _ _ Hn. unfold SDFNameGetter, split.
  rewrite (split_newline_line name rest [] Hn), (split_newline_none name [] Hn).
  cbn [hd rev app].
  split; [reflexivity|]. split; [reflexivity|].
  split; [intros H; apply Hn; exact (strip_In _ _ H)|].
  apply strip_edges.
Qed.

Lemma SDFNameGetter_first_line_witness :
  SDFNameGetter ([x1c] ++ B "  mol 1 " ++ [x1f] ++ LF :: B "  RDKit" ++ LF :: B "M  END")
  = B "mol 1".
Proof.
  destruct (SDFNameGetter_first_line ([x1c] ++ B "  mol 1 " ++ [x1f])
              (B "  RDKit" ++ LF :: B "M  END")) as (E & _).
  - reflexivity.
  - reflexivity.
  - no_LF_tac.
  - rewrite <- !app_assoc in E. cbn [app] in E. cbn [app]. rewrite E.
    vm_compute. reflexivity.
Defined.

(** ** [MakeSDFIndex] on a file without a record *)

Lemma readlines_from_nonempty (F cur : bytes) :
  cur <> [] \/ F <> [] -> readlines_from cur F <> [].
Proof.
  revert cur. induction F as [|c F IH]; intros cur H; cbn [readlines_from].
  - destruct cur; [destruct H; congruence | discriminate].
  - destruct (Byte.eqb c LF); [discriminate|].
    apply IH. left. discriminate.
Qed.

Lemma simplecount_pos (F : bytes) : F <> [] -> 1 <= simplecount F.
Proof.
  intros H. rewrite simplecount_lines. unfold readlines, len.
  pose proof (readlines_from_nonempty F [] (or_intror H)) as Hne.
  destruct (readlines_from [] F); [congruence | cbn [length]; lia].
Qed.

(** X13: [MakeSDFIndex] on a non-empty file of plain text that holds no
    ["$$$$\n"]: the
    builder returns an index without any offset written; its row 0 is the
    whole file ([read] is handed the length [0 - 0 - 1] and goes to the end)
    and its [N] is the line count less one. *)
Theorem MakeSDFIndex_without_records (narrow : raw.dtype -> Z -> option Z)
    (F : bytes) :
  plain_text F ->
  F <> [] ->
  (forall p, ~ occurs_at F sdf_terminator p) ->
  exists self : MolFileIndex,
    MakeSDFIndex narrow F = Ok self /\
    get self 0 = Ok (Str F) /\
    N self = simplecount F - 1 /\
    smilesColIdx self = None /\ nameidx self = None.
Proof.
  intros _ Hne Hno. pose proof (simplecount_pos F Hne) as Hpos.
  assert (Hidx : run_index F sdf_terminator = Ok []).
  { unfold run_index, index, index_fuel.
    rewrite index_loop_from_start; [| discriminate | left; vm_compute; discriminate | lia].
    destruct (occurrences sdf_terminator F 0) as [|p l] eqn:E; [reflexivity|].
    exfalso. apply (Hno p). apply occurrences_occurs_at; [discriminate|].
    rewrite E. left. reflexivity. }
  set (st := {| raw.columns := [("index"%string, offset_dtype (simplecount F))];
                raw.N := simplecount F + 1;
                raw.rows := [0] :: [0] :: repeat [0] (Z.to_nat (simplecount F - 1)) |}).
  assert (Hst : sdf_store narrow F = Ok st).
  { rewrite sdf_store_after_first, Hidx. cbn [bind for_enumerate].
    replace (Z.to_nat (simplecount F + 1))
      with (S (S (Z.to_nat (simplecount F - 1)))) by lia.
    reflexivity. }
  assert (Hrange : forall k, 0 <= k <= 1 ->
                     (0 <=? k) && (k <? simplecount F + 1) = true).
  { intros k Hk. apply andb_true_iff. split; [apply Z.leb_le | apply Z.ltb_lt]; lia. }
  assert (Hrow : _get_on st F false None (Some 0) = Ok (Str F)).
  { unfold _get_on, resolve_row.
    apply (read_record_at st F None 0 0 0 F).
    - unfold raw.get, st. cbn [raw.N raw.rows]. rewrite Hrange by lia. reflexivity.
    - unfold raw.get, st. cbn [raw.N raw.rows]. rewrite Hrange by lia. reflexivity.
    - reflexivity. }
  unfold MakeSDFIndex. rewrite Hst. cbn [bind]. unfold __init__.
  rewrite Hrow. cbn [bind is_not_minus_one Z.eqb negb].
  eexists. split; [reflexivity|].
  unfold get. cbn [hasHeader _get db filename sep N smilesColIdx nameidx].
  split; [exact Hrow|]. split; [cbn [raw.N st]; unfold st; cbn [raw.N]; lia|].
  split; reflexivity.
Qed.

Lemma MakeSDFIndex_without_records_witness :
  exists self : MolFileIndex,
    MakeSDFIndex refuse (B "M  END" ++ [LF]) = Ok self /\
    get self 0 = Ok (Str (B "M  END" ++ [LF])) /\
    N self = 0.
Proof.
  destruct (MakeSDFIndex_without_records refuse (B "M  END" ++ [LF]))
    as (self & H1 & H2 & H3 & _).
  - reflexivity.
  - discriminate.
  - intros p [Hp H].
    destruct (Z.to_nat p) as [|[|[|[|[|[|[|n]]]]]]]; cbn in H; try discriminate H.
    destruct n; discriminate H.
  - exists self. split; [exact H1|]. split; [exact H2|]. rewrite H3. reflexivity.
Defined.

(** ** scripts/storus.py: the jobs of a round *)

Lemma range_cons (lo hi : Z) : lo < hi -> range lo hi = lo :: range (lo + 1) hi.
Proof.
  intros H. unfold range.
  replace (Z.to_nat (hi - lo)) with (S (Z.to_nat (hi - (lo + 1)))) by lia.
  cbn [seq map]. f_equal; [lia|].
  rewrite <- seq_shift, map_map. apply map_ext. intros k. lia.
Qed.

Lemma range_empty (lo hi : Z) : hi <= lo -> range lo hi = [].
Proof.
  intros H. unfold range. replace (Z.to_nat (hi - lo)) with 0%nat by lia. reflexivity.
Qed.

Lemma range_length (lo hi : Z) : lo <= hi -> len (range lo hi) = hi - lo.
Proof.
  intros H. unfold range, len. rewrite length_map, length_seq. lia.
Qed.

Lemma range_app (lo mid hi : Z) :
  lo <= mid <= hi -> range lo mid ++ range mid hi = range lo hi.
Proof.
  remember (Z.to_nat (mid - lo)) as n eqn:En. revert lo En.
  induction n as [|n IH]; intros lo En H.
  - assert (lo = mid) by lia. subst lo.
    rewrite (range_empty mid mid) by lia. reflexivity.
  - rewrite (range_cons lo mid), (range_cons lo hi) by lia.
    cbn [app]. f_equal. apply IH; lia.
Qed.

Lemma collect_range (sm : MolFileIndex) (mol : Z -> pyval) :
  forall (n : nat) (lo hi : Z) (i : option Z) (jobs : list job),
    Z.to_nat (hi - lo) = n ->
    (forall j, lo <= j < hi -> getMol sm j = Ok (mol j)) ->
    collect_jobs sm (range lo hi) i jobs
    = Ok (if lo <? hi then Some (hi - 1) else i,
          jobs ++ map (fun j => (j, mol j)) (range lo hi)).
Proof.
  induction n as [|n IH]; intros lo hi i jobs Hn Hmol.
  - rewrite range_empty by lia. cbn [collect_jobs map]. rewrite app_nil_r.
    replace (lo <? hi) with false by (symmetry; apply Z.ltb_ge; lia). reflexivity.
  - rewrite range_cons by lia. cbn [collect_jobs map].
    rewrite Hmol by lia. cbn [bind].
    rewrite (IH (lo + 1) hi) by (try lia; intros j Hj; apply Hmol; lia).
    replace (lo <? hi) with true by (symmetry; apply Z.ltb_lt; lia).
    rewrite <- app_assoc. cbn [app]. f_equal. f_equal.
    destruct (lo + 1 <? hi) eqn:E; [reflexivity|].
    apply Z.ltb_ge in E. f_equal. lia.
Qed.

Lemma cpu_turn_step (sm : MolFileIndex) (mol : Z -> pyval) (b c : Z)
    (i : option Z) (jl : list (list job)) :
  0 < b ->
  (forall j, c <= j < N sm -> getMol sm j = Ok (mol j)) ->
  c < N sm \/ i = Some (c - 1) ->
  let c' := Z.max c (Z.min (c + b) (N sm)) in
  cpu_turn sm b (c, i, jl)
  = Ok (c', Some (c' - 1),
        jl ++ if c <? N sm then [map (fun j => (j, mol j)) (range c c')] else []).
Proof.
  intros Hb Hmol Hinv c'. unfold cpu_turn.
  rewrite (collect_range sm mol _ c (Z.min (c + b) (N sm)) i [] eq_refl)
    by (intros j Hj; apply Hmol; lia).
  cbn [bind app].
  destruct (Z.lt_ge_cases c (N sm)) as [Hlt|Hge].
  - replace (c <? Z.min (c + b) (N sm)) with true by (symmetry; apply Z.ltb_lt; lia).
    replace (c <? N sm) with true by (symmetry; apply Z.ltb_lt; lia).
    cbn [bind].
    assert (Ec : Z.min (c + b) (N sm) = c') by (unfold c'; lia).
    rewrite Ec. replace (c' - 1 + 1) with c' by lia.
    rewrite (range_cons c c') by lia. reflexivity.
  - replace (c <? Z.min (c + b) (N sm)) with false by (symmetry; apply Z.ltb_ge; lia).
    replace (c <? N sm) with false by (symmetry; apply Z.ltb_ge; lia).
    destruct Hinv as [Hlt| ->]; [lia|]. cbn [bind].
    rewrite range_empty by lia. cbn [map]. rewrite app_nil_r.
    assert (Ec : c' = c) by (unfold c'; lia). rewrite Ec.
    replace (c - 1 + 1) with c by lia. reflexivity.
Qed.

Lemma cpu_turns_steps (sm : MolFileIndex) (mol : Z -> pyval) (b : Z) :
  0 < b ->
  forall (k : nat) (c : Z) (i : option Z) (jl : list (list job)),
    (forall j, c <= j < N sm -> getMol sm j = Ok (mol j)) ->
    c < N sm \/ i = Some (c - 1) ->
    let c' := Z.max c (Z.min (c + Z.of_nat k * b) (N sm)) in
    exists more : list (list job),
      cpu_turns sm b k (c, i, jl)
      = Ok (c', (match k with O => i | S _ => Some (c' - 1) end), jl ++ more) /\
      concat more = map (fun j => (j, mol j)) (range c c') /\
      Forall (fun jobs => jobs <> [] /\ len jobs <= b) more /\
      (length more <= k)%nat.
Proof.
  intros Hb. induction k as [|k IH]; intros c i jl Hmol Hinv c'.
  - exists []. cbn [cpu_turns]. rewrite app_nil_r.
    assert (Ec : c' = c) by (unfold c'; lia). rewrite Ec.
    rewrite range_empty by lia. repeat split; constructor.
  - cbn [cpu_turns]. rewrite (cpu_turn_step sm mol b c i jl Hb Hmol Hinv). cbn [bind].
    set (c1 := Z.max c (Z.min (c + b) (N sm))).
    assert (Hkb : 0 <= Z.of_nat k * b) by (apply Z.mul_nonneg_nonneg; lia).
    assert (Ec : Z.max c1 (Z.min (c1 + Z.of_nat k * b) (N sm)) = c').
    { unfold c', c1. replace (Z.of_nat (S k) * b) with (Z.of_nat k * b + b) by lia. lia. }
    destruct (IH c1 (Some (c1 - 1))
                (jl ++ if c <? N sm then [map (fun j => (j, mol j)) (range c c1)] else []))
      as (more & Hrun & Hcat & Hall & Hlen).
    { intros j Hj. apply Hmol. unfold c1 in Hj. lia. }
    { right. reflexivity. }
    rewrite Ec in Hrun, Hcat.
    exists ((if c <? N sm then [map (fun j => (j, mol j)) (range c c1)] else []) ++ more).
    split; [|split; [|split]].
    + rewrite Hrun, <- app_assoc. f_equal. f_equal. f_equal.
      destruct k; [|reflexivity]. f_equal. lia.
    + unfold job in *. rewrite concat_app, Hcat.
      rewrite <- (range_app c c1 c') by (unfold c1, c'; lia).
      rewrite map_app. f_equal.
      destruct (c <? N sm) eqn:E; cbn [concat]; [apply app_nil_r|].
      apply Z.ltb_ge in E. rewrite range_empty by (unfold c1; lia). reflexivity.
    + apply Forall_app. split; [|exact Hall].
      destruct (c <? N sm) eqn:E; [|constructor].
      apply Z.ltb_lt in E. constructor; [|constructor].
      split.
      * rewrite (range_cons c c1) by (unfold c1; lia). discriminate.
      * unfold len. rewrite length_map. fold (len (range c c1)).
        rewrite range_length by (unfold c1; lia). unfold c1. lia.
    + unfold job in *. rewrite length_app. destruct (c <? N sm); cbn [length]; lia.
Qed.

(** X14: one round of job building in storus.py hands out contiguous,
    disjoint batches: started at [count] in range, or past the end with
    [i] left at [count - 1] by the round before, the [num_cpus] turns build
    at most [num_cpus] non-empty job lists of at most [batchsize] entries
    that, put end to end, are the rows [count, count'), each once and in
    order, with its [getMol]; [count'] is [count + num_cpus * batchsize],
    capped at [sm.N]. *)
Theorem joblist_partitions_rows (sm : MolFileIndex) (mol : Z -> pyval)
    (batchsize : Z) (num_cpus : nat) (count : Z) (i : option Z) :
  0 < batchsize ->
  (0 < num_cpus)%nat ->
  (forall j, count <= j < N sm -> getMol sm j = Ok (mol j)) ->
  count < N sm \/ i = Some (count - 1) ->
  let count' := Z.max count (Z.min (count + Z.of_nat num_cpus * batchsize) (N sm)) in
  exists joblist : list (list job),
    cpu_turns sm batchsize num_cpus (count, i, [])
    = Ok (count', Some (count' - 1), joblist) /\
    concat joblist = map (fun j => (j, mol j)) (range count count') /\
    Forall (fun jobs => jobs <> [] /\ len jobs <= batchsize) joblist /\
    (length joblist <= num_cpus)%nat.
Proof.
  intros Hb Hk Hmol Hinv count'.
  destruct (cpu_turns_steps sm mol batchsize Hb num_cpus count i [] Hmol Hinv)
    as (more & Hrun & Hcat & Hall & Hlen).
  exists more. cbn [app] in Hrun.
  destruct num_cpus as [|k]; [lia|].
  split; [exact Hrun|]. split; [exact Hcat|]. split; [exact Hall | exact Hlen].
Qed.

(** X15: the first round of storus.py on an index whose [N] is not positive
    (a file of a single line has [N = 0]): no row is in range, the inner
    loop never assigns [i], and [count = i+1] raises [NameError]. *)
Theorem joblist_first_round_without_rows (sm : MolFileIndex) (batchsize : Z)
    (num_cpus : nat) :
  N sm <= 0 -> (0 < num_cpus)%nat ->
  cpu_turns sm batchsize num_cpus (0, None, []) = Raise (NameError "i").
Proof.
  intros HN Hk. destruct num_cpus as [|k]; [lia|].
  cbn [cpu_turns]. unfold cpu_turn.
  rewrite range_empty by lia. reflexivity.
Qed.

Lemma joblist_partitions_rows_witness :
  exists sm : MolFileIndex,
    __init__ smiles_file smiles_file_index (ColInt 0) (ColInt 1) false (Some (B ",")) None
    = Ok sm /\
    exists joblist : list (list job),
      cpu_turns sm 1 3 (0, None, []) = Ok (2, Some 1, joblist) /\
      concat joblist = [(0, Str (B "a")); (1, Str (B "bb"))].
Proof.
  eexists. split; [vm_compute; reflexivity|].
  match goal with
  | |- exists jl, cpu_turns ?s _ _ _ = _ /\ _ =>
      assert (Hmol : forall j, 0 <= j < N s ->
                getMol s j = Ok ((fun j => if j =? 0 then Str (B "a") else Str (B "bb")) j));
      [| assert (Hinv : 0 < N s \/ @None Z = Some (0 - 1));
         [| pose proof (joblist_partitions_rows s _ 1 3 0 None
                          ltac:(lia) ltac:(lia) Hmol Hinv) as H ] ]
  end.
  - intros j Hj. cbn [N] in Hj.
    assert (Hcases : j = 0 \/ j = 1) by lia.
    destruct Hcases as [-> | ->]; vm_compute; reflexivity.
  - left. cbn [N]. lia.
  - cbv zeta in H. destruct H as (jl & H1 & H2 & _).
    exists jl. split; [exact H1 | exact H2].
Defined.

Lemma joblist_first_round_without_rows_witness :
  exists sm : MolFileIndex,
    MakeSmilesIndex refuse (B "CCO" ++ [LF]) false (ColInt 0) (ColInt (-1)) None = Ok sm /\
    N sm = 0 /\
    cpu_turns sm 10000 4 (0, None, []) = Raise (NameError "i").
Proof.
  eexists. split; [vm_compute; reflexivity|]. split; [reflexivity|].
  apply joblist_first_round_without_rows; [cbn [N]; lia | lia].
Defined.

(** ** Columns given by name *)

Lemma bytes_eqb_eq (a b : bytes) : bytes_eqb a b = true <-> a = b.
Proof.
  unfold bytes_eqb. destruct (list_eq_dec byte_eq_dec a b); split; congruence.
Qed.

Lemma list_index_found (l : list bytes) (x : bytes) :
  forall i0 i : Z,
    list_index l x i0 = Some i ->
    i0 <= i /\
    nth_error l (Z.to_nat (i - i0)) = Some x /\
    forall k : nat, (k < Z.to_nat (i - i0))%nat -> nth_error l k <> Some x.
Proof.
  induction l as [|y l IH]; intros i0 i H; cbn [list_index] in H; [discriminate H|].
  destruct (bytes_eqb y x) eqn:E.
  - injection H as <-. apply bytes_eqb_eq in E. subst y.
    replace (Z.to_nat (i0 - i0)) with 0%nat by lia.
    split; [lia|]. split; [reflexivity|]. intros k Hk. lia.
  - destruct (IH (i0 + 1) i H) as (Hle & Hnth & Hfirst).
    split; [lia|].
    replace (Z.to_nat (i - i0)) with (S (Z.to_nat (i - (i0 + 1)))) by lia.
    split; [exact Hnth|].
    intros [|k] Hk; cbn [nth_error].
    + intros Heq. injection Heq as ->.
      assert (bytes_eqb x x = true) by (apply bytes_eqb_eq; reflexivity). congruence.
    + apply Hfirst. lia.
Qed.

Lemma digits_value_no_digit (s : bytes) (acc : Z) :
  (forall c, In c s -> digit_of c = None) -> digits_value acc false s = None.
Proof.
  intros H. destruct s as [|c s]; [reflexivity|].
  cbn [digits_value]. rewrite (H c (or_introl eq_refl)), andb_false_r. reflexivity.
Qed.

Lemma int_lstrip_In (s : bytes) (c : byte) : In c (int_lstrip s) -> In c s.
Proof.
  induction s as [|a s IH]; cbn [int_lstrip]; [intros []|].
  destruct (is_int_space a); [intros H; right; exact (IH H) | intros H; exact H].
Qed.

Lemma int_strip_In (s : bytes) (c : byte) : In c (int_strip s) -> In c s.
Proof.
  unfold int_strip. intros H.
  apply in_rev in H. apply int_lstrip_In in H. apply in_rev in H.
  apply int_lstrip_In in H. exact H.
Qed.

Lemma int_of_str_no_digit (s : bytes) :
  (forall c, In c s -> digit_of c = None) -> int_of_str s = None.
Proof.
  intros H. unfold int_of_str.
  assert (Hs : forall c, In c (int_strip s) -> digit_of c = None)
    by (intros c Hc; apply H; exact (int_strip_In s c Hc)).
  destruct (int_strip s) as [|c r]; [reflexivity|].
  assert (Hall : digits_value 0 false (c :: r) = None)
    by (apply digits_value_no_digit; exact Hs).
  assert (Hr : digits_value 0 false r = None)
    by (apply digits_value_no_digit; intros d Hd; apply Hs; right; exact Hd).
  destruct c; try exact Hall; rewrite Hr; reflexivity.
Qed.

Lemma init_resolves (F : bytes) (store : raw.RawStore) (sc nc : column)
    (h : bool) (sp : option bytes) (nf : option (bytes -> bytes))
    (self : MolFileIndex) :
  __init__ F store sc nc h sp nf = Ok self ->
  (is_not_minus_one sc = true ->
   exists c, resolve_column (colnames self) sc = Ok c /\ smilesColIdx self = Some c) /\
  (is_not_minus_one nc = true ->
   exists n, resolve_column (colnames self) nc = Ok n /\ nameidx self = Some n).
Proof.
  unfold __init__. intros H. bind_inv H. injection H as <-. cbn.
  rename a into names, a0 into row, a1 into sidx, a2 into nidx.
  split.
  - intros Hsc. rewrite Hsc in E1.
    destruct (resolve_column names sc) as [c| |]; cbn [bind] in E1; try discriminate E1.
    destruct (pylen row <=? c); [discriminate E1|].
    exists c. split; [reflexivity | congruence].
  - intros Hnc. rewrite Hnc in E2.
    destruct (resolve_column names nc) as [n| |]; cbn [bind] in E2; try discriminate E2.
    destruct (pylen row <=? n).
    + destruct (getattr "smilesColIdx" sidx); discriminate E2.
    + exists n. split; [reflexivity | congruence].
Qed.

(** X16: the smiles column given as a string of ASCII characters, of at
    most 4300 of them (Python refuses to convert longer digit strings);
    the name column goes the same way.  A string without any digit is not
    an integer, so it is looked up in the header fields: the index kept is
    the position of the first field equal to it.  A string that [int()]
    accepts (white space around, a sign, digits with single underscores
    between them) is taken as that index, whatever the header says. *)
Theorem init_column_by_name (F : bytes) (store : raw.RawStore) (s : bytes)
    (nc : column) (h : bool) (sp : option bytes) (nf : option (bytes -> bytes))
    (self : MolFileIndex) :
  ascii_text s -> len s <= 4300 ->
  __init__ F store (ColStr s) nc h sp nf = Ok self ->
  (forall i, int_of_str s = Some i -> smilesColIdx self = Some i) /\
  ((forall c, In c s -> digit_of c = None) ->
   forall names, colnames self = StrList names ->
     exists i, smilesColIdx self = Some i /\ 0 <= i /\
               nth_error names (Z.to_nat i) = Some s /\
               forall k : nat, (k < Z.to_nat i)%nat -> nth_error names k <> Some s).
Proof.
  intros _ _ H. destruct (init_resolves _ _ _ _ _ _ _ _ H) as [Hs _].
  destruct (Hs eq_refl) as (c & Hres & Hc). cbn [resolve_column] in Hres.
  split.
  - intros i Hi. rewrite Hi in Hres. congruence.
  - intros Hnd names Hnames. rewrite (int_of_str_no_digit s Hnd), Hnames in Hres.
    cbn [colnames_index] in Hres.
    destruct (list_index names s 0) as [i|] eqn:Ei; cbn [bind] in Hres;
      [|discriminate Hres].
    destruct (i =? -1); [discriminate Hres|]. injection Hres as <-.
    destruct (list_index_found names s 0 i Ei) as (Hle & Hnth & Hfirst).
    replace (i - 0) with i in * by lia.
    exists i. split; [exact Hc|]. split; [exact Hle|]. split; [exact Hnth | exact Hfirst].
Qed.

Lemma init_column_by_name_witness :
  exists self1 self2 : MolFileIndex,
    MakeSmilesIndex refuse
      (B "id,smiles" ++ [LF] ++ B "1,CCO" ++ [LF] ++ B "2,CCN" ++ [LF]) true
      (ColStr (B "smiles")) (ColInt (-1)) (Some (B ",")) = Ok self1 /\
    smilesColIdx self1 = Some 1 /\
    getMol self1 0 = Ok (Str (B "CCO")) /\
    MakeSmilesIndex refuse
      (B "id,smiles" ++ [LF] ++ B "1,CCO" ++ [LF] ++ B "2,CCN" ++ [LF]) true
      (ColStr (B " 0_1 ")) (ColInt (-1)) (Some (B ",")) = Ok self2 /\
    smilesColIdx self2 = Some 1.
Proof.
  eexists. eexists. split; [vm_compute; reflexivity|].
  split; [|split; [vm_compute; reflexivity|split; [vm_compute; reflexivity|]]].
  - match goal with
    | |- smilesColIdx ?s = _ =>
        destruct (init_column_by_name
                    (B "id,smiles" ++ [LF] ++ B "1,CCO" ++ [LF] ++ B "2,CCN" ++ [LF])
                    (db s) (B "smiles") (ColInt (-1)) true (Some (B ",")) None s)
          as [_ Hname]
    end.
    + reflexivity.
    + vm_compute. discriminate.
    + vm_compute. reflexivity.
    + destruct (Hname ltac:(intros c Hc; cbn in Hc;
                            repeat (destruct Hc as [<-|Hc]; [reflexivity|]); destruct Hc)
                      [B "id"; B "smiles"] eq_refl)
        as (i & Hi & _). reflexivity.
  - match goal with
    | |- smilesColIdx ?s = _ =>
        destruct (init_column_by_name
                    (B "id,smiles" ++ [LF] ++ B "1,CCO" ++ [LF] ++ B "2,CCN" ++ [LF])
                    (db s) (B " 0_1 ") (ColInt (-1)) true (Some (B ",")) None s)
          as [Hint _]
    end.
    + reflexivity.
    + vm_compute. discriminate.
    + vm_compute. reflexivity.
    + apply Hint. vm_compute. reflexivity.
Defined.
